(** * Reward selection and redemption engine of Elite Club Gym

    A shallow embedding of the Sequelize models [QRCode], [Prize],
    [PrizeWinning] and [Roulette] and the properties of the engine they
    implement.

    Conventions of the embedding.
    - JavaScript numbers stored in INTEGER columns are [Z]; probability
      weights and the random draw are exact rationals [Q].
    - A [Date] is the number of milliseconds on the local wall clock since
      the local epoch (1970-01-01 00:00, a Thursday); the zone offset is
      constant.  [new Date()] is an explicit argument [now].
    - An [async] method that mutates [this] and saves it is a function from
      the state before to an outcome and the state after; [throw] is the
      [Thrown] outcome.
    - [sequelize.models.X] being registered is a boolean of the
      environment; [findByPk] returning [null] is [None]. *)

From Stdlib Require Import QArith Qabs Qround Ascii String.
From stdpp Require Import base decidable option list numbers strings gmap.

Local Open Scope Z_scope.

(** ** Outcomes of methods that may throw *)

Inductive outcome (E A : Type) : Type :=
| Returned (a : A)
| Thrown (e : E).
Arguments Returned {E A} a.
Arguments Thrown {E A} e.

Definition is_returned {E A} (o : outcome E A) : bool :=
  match o with Returned _ => true | Thrown _ => false end.

(** ** Structured results

    [{ available: true }], [{ valid: true }], [{ canApply: true }] are
    [Allowed]; the same object with the flag false and a [reason] is
    [Denied reason]. *)

Inductive verdict (R : Type) : Type :=
| Allowed
| Denied (reason : R).
Arguments Allowed {R}.
Arguments Denied {R} reason.

Definition is_allowed {R} (v : verdict R) : bool :=
  match v with Allowed => true | Denied _ => false end.

(** Truthiness of a nullable INTEGER column: [null] and [0] are falsy. *)
Definition truthyZ (o : option Z) : option Z :=
  match o with
  | Some n => if bool_decide (n = 0) then None else Some n
  | None => None
  end.

(** ** The local clock *)

Module Clock.

Definition Date := Z.

Definition ms_per_minute : Z := 60000.
Definition ms_per_day : Z := 86400000.

(** [d.setHours(0, 0, 0, 0)] *)
Definition setHours0 (d : Date) : Date := d - d `mod` ms_per_day.

(** [d.getDay()]: 0 is Sunday; day 0 of the epoch is a Thursday. *)
Definition getDay (d : Date) : Z := (d `div` ms_per_day + 4) `mod` 7.

(** [d.setDate(d.getDate() - k)] *)
Definition subDays (d : Date) (k : Z) : Date := d - k * ms_per_day.

(** [d.setMinutes(d.getMinutes() - m)] *)
Definition subMinutes (d : Date) (m : Z) : Date := d - m * ms_per_minute.

(** [todayStart]: [new Date(now)] then [setHours(0,0,0,0)]. *)
Definition todayStart (now : Date) : Date := setHours0 now.

(** [weekStart]: [setDate(getDate() - getDay())] then [setHours(0,0,0,0)]. *)
Definition weekStart (now : Date) : Date :=
  setHours0 (subDays now (getDay now)).

(** [d.toTimeString().slice(0, 8)], the zero-padded "HH:MM:SS" of the
    day, kept as the number of seconds since midnight: on such strings
    the lexicographic order of JavaScript is the order of these numbers. *)
Definition timeOfDay (d : Date) : Z := (d `mod` ms_per_day) `div` 1000.

End Clock.

(** ** Scan gate: [src/models/QRCode.js] *)

Module QRCode.
Import Clock.

Inductive PrizeCategory := basic | premium | exclusive | special.

Inductive Error :=
| Codigo_desactivado
| Codigo_agotado
| Codigo_aun_no_valido
| Codigo_expirado
| Codigo_no_valido_en_este_horario.

Record t := mk {
  is_active : bool;
  is_used : bool;
  used_date : option Date;
  used_by_client_id : option string;
  prize_category : PrizeCategory;
  valid_from : Date;
  valid_until : option Date;
  max_uses : Z;
  current_uses : Z;
  time_restricted : bool;
  allowed_hours_start : option Z;
  allowed_hours_end : option Z;
  metadata : option string;
  scan_count : Z;
  last_scan_date : option Date
}.

Definition isValid (now : Date) (q : t) : verdict Error :=
  if negb (is_active q) then Denied Codigo_desactivado
  else if bool_decide (max_uses q <= current_uses q) then Denied Codigo_agotado
  else if bool_decide (now < valid_from q) then Denied Codigo_aun_no_valido
  else match valid_until q with
       | Some u =>
           if bool_decide (u < now) then Denied Codigo_expirado else Allowed
       | None => Allowed
       end.

Definition isValidTime (time : Date) (q : t) : bool :=
  if negb (time_restricted q) then true
  else
    let currentTime := timeOfDay time in
    match allowed_hours_start q, allowed_hours_end q with
    | Some start, Some end_ =>
        if bool_decide (end_ < start)
        then bool_decide (start <= currentTime) || bool_decide (currentTime <= end_)
        else bool_decide (start <= currentTime) && bool_decide (currentTime <= end_)
    | _, _ => true
    end.

Record UseResult := mkUse {
  success : bool;
  uses_remaining : Z;
  res_prize_category : PrizeCategory;
  res_metadata : option string
}.

(** [use(clientId)] at time [now]. *)
Definition use (now : Date) (clientId : string) (q : t)
  : outcome Error UseResult * t :=
  match isValid now q with
  | Denied reason => (Thrown reason, q)
  | Allowed =>
      if negb (isValidTime now q)
      then (Thrown Codigo_no_valido_en_este_horario, q)
      else
        let cu := current_uses q + 1 in
        let reached := bool_decide (max_uses q <= cu) in
        let q' :=
          {| is_active := is_active q;
             is_used := if reached then true else is_used q;
             used_date := if reached then Some now else used_date q;
             used_by_client_id :=
               if reached then Some clientId else used_by_client_id q;
             prize_category := prize_category q;
             valid_from := valid_from q;
             valid_until := valid_until q;
             max_uses := max_uses q;
             current_uses := cu;
             time_restricted := time_restricted q;
             allowed_hours_start := allowed_hours_start q;
             allowed_hours_end := allowed_hours_end q;
             metadata := metadata q;
             scan_count := scan_count q + 1;
             last_scan_date := Some now |} in
        (Returned {| success := true;
                     uses_remaining := max_uses q' - current_uses q';
                     res_prize_category := prize_category q';
                     res_metadata := metadata q' |}, q')
  end.

(** A sequence of use attempts, each by a client at a time. *)
Fixpoint use_all (calls : list (Date * string)) (q : t) : t :=
  match calls with
  | [] => q
  | (now, c) :: rest => use_all rest (snd (use now c q))
  end.

End QRCode.

(** ** Rows of the tables the engine reads and writes

    One module per table, named by the model's [tableName]; only the
    columns the engine's methods read or write are kept. *)

Inductive PrizeType :=
| membership_days | discount_percentage | discount_amount
| free_product | points | cash | service | other.

Inductive Status := pending | applied | redeemed | expired | cancelled.

Global Instance Status_eq_dec : EqDecision Status.
Proof. solve_decision. Defined.

Module prizes.
Import Clock.

Record row := mk {
  id : string;
  name : string;
  type : PrizeType;
  value : Q;
  free_product_id : option string;
  product_quantity : Z;
  is_active : bool;
  stock_quantity : option Z;
  awarded_count : Z;
  redeemed_count : Z;
  valid_from : Date;
  valid_until : option Date;
  auto_apply : bool;
  expiration_days : option Z;
  max_per_client : option Z;
  max_per_day : option Z;
  max_per_week : option Z
}.
End prizes.

Module prize_winnings.
Import Clock.

Record row := mk {
  id : string;
  client_id : string;
  prize_id : string;
  roulette_id : option string;
  status : Status;
  applied_date : option Date;
  redeemed_date : option Date;
  expires_date : option Date;
  auto_applied : bool;
  manual_redemption_required : bool;
  redemption_code : option string;
  processed_by_user_id : option string;
  processing_notes : option string;
  notification_sent : bool;
  notification_sent_date : option Date;
  requires_verification : bool;
  verified : bool;
  verified_by_user_id : option string;
  verified_date : option Date;
  cancelled_reason : option string;
  cancelled_by_user_id : option string;
  cancelled_date : option Date;
  metadata : option string;
  created_at : Date
}.
End prize_winnings.

Module roulettes.
Import Clock.

(** One element of the JSON array [sectors_config].  A property that is
    absent from the object is [None].  [oid] is the identity of the
    JavaScript object, which [Array.prototype.indexOf] compares. *)
Record sector := mkSector {
  oid : nat;
  prize_id : option string;
  probability : option Q;
  color : option string
}.

Record row := mk {
  id : string;
  sectors_config : list sector;
  is_active : bool;
  is_default : bool;
  max_spins_per_day : option Z;
  max_spins_per_week : option Z;
  cooldown_minutes : Z;
  valid_from : Date;
  valid_until : option Date;
  available_hours_start : option Z;
  available_hours_end : option Z;
  available_days : list Z;
  total_spins : Z;
  total_prizes_awarded : Z
}.
End roulettes.

(** Which models are registered in [sequelize.models]. *)
Record Models := mkModels {
  has_Prize : bool;
  has_PrizeWinning : bool;
  has_Roulette : bool;
  has_Client : bool;
  has_ClientMembership : bool;
  has_Notification : bool;
  has_Order : bool;
  has_OrderItem : bool;
  has_Product : bool
}.

(** What the engine reads from its collaborators: which clients exist,
    which have an active membership, which products exist. *)
Record Directory := mkDirectory {
  client_exists : string -> bool;
  active_membership : string -> bool;
  product_exists : string -> bool
}.

(** Calls to the collaborators, oldest first.  [Ev_dispatch] marks that
    [Prize.applyToClient] reached its [switch (this.type)]: the side effect
    of the prize, whatever its type does. *)
Inductive Event :=
| Ev_dispatch (client prize : string) (ty : PrizeType)
| Ev_membership_extended (client : string) (days : Z)
| Ev_points_added (client : string) (amount : Q)
| Ev_free_product_order (client product : string) (quantity : Z)
| Ev_notification (client : string) (kind : string).

Definition is_dispatch (e : Event) : bool :=
  match e with Ev_dispatch _ _ _ => true | _ => false end.

(** [parseInt] of a DECIMAL value: truncation toward zero. *)
Definition parseInt (q : Q) : Z := Z.quot (Qnum q) (Zpos (Qden q)).

(** ** Prize catalog: [src/models/Prize.js] *)

Module Prize.
Import Clock prizes.

Inductive Reason :=
| Premio_desactivado
| Premio_aun_no_valido
| Premio_expirado
| Premio_agotado
| Limite_diario_alcanzado
| Limite_semanal_alcanzado
| Premio_requiere_canje_manual
| Modelo_Cliente_no_disponible.

Inductive Error := Cliente_no_encontrado.

Definition isAvailable (now : Date) (p : row) : verdict Reason :=
  if negb (is_active p) then Denied Premio_desactivado
  else if bool_decide (now < valid_from p) then Denied Premio_aun_no_valido
  else if match valid_until p with
          | Some u => bool_decide (u < now)
          | None => false
          end then Denied Premio_expirado
  else if match stock_quantity p with
          | Some s => bool_decide (s <= awarded_count p)
          | None => false
          end then Denied Premio_agotado
  else Allowed.

(** [PrizeWinning.count({ where: { prize_id, created_at: { [Op.gte]: start } } })] *)
Definition countSince (winnings : list prize_winnings.row)
    (pid : string) (start : Date) : Z :=
  Z.of_nat (length (filter
    (fun w => prize_winnings.prize_id w = pid
              /\ start <= prize_winnings.created_at w) winnings)).

Definition checkLimits (m : Models) (winnings : list prize_winnings.row)
    (now : Date) (p : row) : verdict Reason :=
  let daily :=
    match truthyZ (max_per_day p) with
    | Some cap =>
        has_PrizeWinning m
        && bool_decide (cap <= countSince winnings (id p) (todayStart now))
    | None => false
    end in
  if daily then Denied Limite_diario_alcanzado
  else
    let weekly :=
      match truthyZ (max_per_week p) with
      | Some cap =>
          has_PrizeWinning m
          && bool_decide (cap <= countSince winnings (id p) (weekStart now))
      | None => false
      end in
    if weekly then Denied Limite_semanal_alcanzado else Allowed.

Definition applyMembershipDays (m : Models) (dir : Directory)
    (client : string) (p : row) : list Event :=
  if negb (has_ClientMembership m) then []
  else if active_membership dir client
       then [Ev_membership_extended client (parseInt (value p))]
       else [].

Definition applyFreeProduct (m : Models) (dir : Directory)
    (client : string) (p : row) : list Event :=
  match free_product_id p with
  | None => []
  | Some prod =>
      if has_Order m && has_OrderItem m && has_Product m
      then if product_exists dir prod
           then [Ev_free_product_order client prod (product_quantity p)]
           else []
      else []
  end.

(** [applyToClient(clientId)]: the result [{ applied: true }] is
    [Allowed]; the events are the calls made, in order. *)
Definition applyToClient (m : Models) (dir : Directory)
    (clientId : string) (p : row)
  : outcome Error (verdict Reason) * list Event :=
  if negb (auto_apply p) then (Returned (Denied Premio_requiere_canje_manual), [])
  else if negb (has_Client m)
       then (Returned (Denied Modelo_Cliente_no_disponible), [])
  else if negb (client_exists dir clientId) then (Thrown Cliente_no_encontrado, [])
  else
    let effects :=
      match type p with
      | membership_days => applyMembershipDays m dir clientId p
      | points => [Ev_points_added clientId (value p)]
      | discount_percentage | discount_amount => []
      | free_product => applyFreeProduct m dir clientId p
      | _ => []
      end in
    (Returned Allowed, Ev_dispatch clientId (id p) (type p) :: effects).

Definition set_counts (awarded redeemed : Z) (p : row) : row :=
  {| id := id p; name := name p; type := type p; value := value p;
     free_product_id := free_product_id p;
     product_quantity := product_quantity p;
     is_active := is_active p; stock_quantity := stock_quantity p;
     awarded_count := awarded; redeemed_count := redeemed;
     valid_from := valid_from p; valid_until := valid_until p;
     auto_apply := auto_apply p; expiration_days := expiration_days p;
     max_per_client := max_per_client p; max_per_day := max_per_day p;
     max_per_week := max_per_week p |}.

(** [this.awarded_count += 1; await this.save()] *)
Definition incrementAwarded (p : row) : row :=
  set_counts (awarded_count p + 1) (redeemed_count p) p.

(** [this.redeemed_count += 1; await this.save()] *)
Definition incrementRedeemed (p : row) : row :=
  set_counts (awarded_count p) (redeemed_count p + 1) p.

End Prize.

(** ** Won-prize lifecycle: [src/models/PrizeWinning.js] *)

Module PrizeWinning.
Import Clock prize_winnings.

(** The messages of the module: reasons of [canBeApplied] and the
    [Error]s thrown. *)
Inductive Message :=
| Premio_ya (s : Status)
| Premio_expirado
| Requiere_verificacion
| Premio_no_encontrado
| Cliente_no_encontrado
| No_se_pudo_aplicar_el_premio
| No_se_puede_canjear_un_premio (s : Status)
| El_premio_ha_expirado
| No_se_puede_cancelar_un_premio_ya_aplicado_o_canjeado
| No_se_pudo_generar_un_codigo_de_canje_unico.

(** The environment of a call: the registered models, the collaborators'
    directory and the clock. *)
Record Env := mkEnv {
  models : Models;
  dir : Directory;
  now : Date
}.

(** What a call may change besides its own row: the [prizes] table and
    the calls made to collaborators. *)
Record World := mkWorld {
  prizes_tbl : gmap string prizes.row;
  trace : list Event
}.

Definition emit (evs : list Event) (w : World) : World :=
  {| prizes_tbl := prizes_tbl w; trace := trace w ++ evs |}.

Definition put_prize (p : prizes.row) (w : World) : World :=
  {| prizes_tbl := <[prizes.id p := p]> (prizes_tbl w); trace := trace w |}.

(** *** Redemption codes *)

Definition chars : string := "ABCDEFGHJKLMNPQRSTUVWXYZ23456789".
Definition maxAttempts : Z := 10.

(** [s.charAt(i)]: the empty string when [i] is out of range. *)
Definition charAt (s : string) (i : Z) : string :=
  if bool_decide (i < 0) then EmptyString
  else match String.get (Z.to_nat i) s with
       | Some c => String c EmptyString
       | None => EmptyString
       end.

(** The random source: the successive values of [Math.random()], read at
    a cursor. *)
Definition Random := nat -> Q.

(** The inner [for] loop: [n] characters from the cursor [pos]. *)
Fixpoint randomChars (rng : Random) (pos n : nat) (code : string) : string :=
  match n with
  | O => code
  | S k =>
      let i := Qfloor (rng pos * inject_Z (Z.of_nat (String.length chars))) in
      randomChars rng (S pos) k (code +:+ charAt chars i)
  end.

Definition randomCode (rng : Random) (pos : nat) : string :=
  randomChars rng pos 8 EmptyString.

(** [this.findOne({ where: { redemption_code: code } })], as a boolean. *)
Definition existing (stored : list row) (code : string) : bool :=
  bool_decide (Exists (fun w => redemption_code w = Some code) stored).

(** The [do ... while (attempts < maxAttempts)] loop; [budget] bounds the
    iterations left.  Returns the last code, [attempts] and the cursor. *)
Fixpoint do_while (rng : Random) (stored : list row)
    (budget : nat) (pos : nat) (attempts : Z) : string * Z * nat :=
  let code := randomCode rng pos in
  if negb (existing stored code) then (code, attempts, (pos + 8)%nat)
  else
    let attempts := attempts + 1 in
    match budget with
    | S b =>
        if bool_decide (attempts < maxAttempts)
        then do_while rng stored b (pos + 8)%nat attempts
        else (code, attempts, (pos + 8)%nat)
    | O => (code, attempts, (pos + 8)%nat)
    end.

(** [generateRedemptionCode()]: the outcome and the cursor after it. *)
Definition generateRedemptionCode (rng : Random) (stored : list row)
    (pos : nat) : outcome Message string * nat :=
  let '(code, attempts, pos') :=
    do_while rng stored (Z.to_nat maxAttempts) pos 0 in
  if bool_decide (maxAttempts <= attempts)
  then (Thrown No_se_pudo_generar_un_codigo_de_canje_unico, pos')
  else (Returned code, pos').

(** Codes generated by a call (eight random values each), and the
    retries: the generations after the first. *)
Definition generations (rng : Random) (stored : list row) (pos : nat) : nat :=
  ((snd (generateRedemptionCode rng stored pos) - pos) / 8)%nat.

Definition retries (rng : Random) (stored : list row) (pos : nat) : nat :=
  (generations rng stored pos - 1)%nat.

Definition falsy_string (o : option string) : bool :=
  match o with
  | None => true
  | Some s => bool_decide (s = EmptyString)
  end.

Definition set_code_expiry (code : option string) (exp : option Date)
    (r : row) : row :=
  {| id := id r; client_id := client_id r; prize_id := prize_id r;
     roulette_id := roulette_id r; status := status r;
     applied_date := applied_date r; redeemed_date := redeemed_date r;
     expires_date := exp; auto_applied := auto_applied r;
     manual_redemption_required := manual_redemption_required r;
     redemption_code := code;
     processed_by_user_id := processed_by_user_id r;
     processing_notes := processing_notes r;
     notification_sent := notification_sent r;
     notification_sent_date := notification_sent_date r;
     requires_verification := requires_verification r;
     verified := verified r; verified_by_user_id := verified_by_user_id r;
     verified_date := verified_date r;
     cancelled_reason := cancelled_reason r;
     cancelled_by_user_id := cancelled_by_user_id r;
     cancelled_date := cancelled_date r; metadata := metadata r;
     created_at := created_at r |}.

(** The [beforeCreate] hook. *)
Definition beforeCreate (e : Env) (tbl : gmap string prizes.row)
    (rng : Random) (stored : list row) (pos : nat) (r : row)
  : outcome Message row * nat :=
  let '(code, pos') :=
    if manual_redemption_required r && falsy_string (redemption_code r)
    then match generateRedemptionCode rng stored pos with
         | (Returned c, p) => (Returned (Some c), p)
         | (Thrown err, p) => (Thrown err, p)
         end
    else (Returned (redemption_code r), pos) in
  match code with
  | Thrown err => (Thrown err, pos')
  | Returned code =>
      let exp :=
        match expires_date r with
        | Some d => Some d
        | None =>
            if has_Prize (models e) then
              match tbl !! prize_id r with
              | Some prize =>
                  match truthyZ (prizes.expiration_days prize) with
                  | Some days => Some (now e + days * ms_per_day)
                  | None => None
                  end
              | None => None
              end
            else None
        end in
      (Returned (set_code_expiry code exp r), pos')
  end.

(** *** The row's own methods *)

Definition isExpired (now : Date) (r : row) : bool :=
  match expires_date r with
  | None => false
  | Some d => bool_decide (d < now)
  end.

Definition canBeApplied (now : Date) (r : row) : verdict Message :=
  if bool_decide (status r <> pending) then Denied (Premio_ya (status r))
  else if isExpired now r then Denied Premio_expirado
  else if requires_verification r && negb (verified r)
       then Denied Requiere_verificacion
  else Allowed.

Definition or_else {A} (o : option A) (d : A) : option A :=
  match o with Some _ => o | None => Some d end.

(** The [beforeUpdate] hook, run by [save()]: [prev] holds the values of
    the last load or save, so [changed('status')] is a difference of
    status with it. *)
Definition beforeUpdate (now : Date) (prev r : row) : row :=
  let st := bool_decide (status prev <> status r) in
  let ve := bool_decide (verified prev <> verified r) in
  {| id := id r; client_id := client_id r; prize_id := prize_id r;
     roulette_id := roulette_id r; status := status r;
     applied_date :=
       if st && bool_decide (status r = applied)
       then or_else (applied_date r) now else applied_date r;
     redeemed_date :=
       if st && bool_decide (status r = redeemed)
       then or_else (redeemed_date r) now else redeemed_date r;
     expires_date := expires_date r; auto_applied := auto_applied r;
     manual_redemption_required := manual_redemption_required r;
     redemption_code := redemption_code r;
     processed_by_user_id := processed_by_user_id r;
     processing_notes := processing_notes r;
     notification_sent := notification_sent r;
     notification_sent_date := notification_sent_date r;
     requires_verification := requires_verification r;
     verified := verified r; verified_by_user_id := verified_by_user_id r;
     verified_date :=
       if ve && verified r then or_else (verified_date r) now
       else verified_date r;
     cancelled_reason := cancelled_reason r;
     cancelled_by_user_id := cancelled_by_user_id r;
     cancelled_date :=
       if st && bool_decide (status r = cancelled)
       then or_else (cancelled_date r) now else cancelled_date r;
     metadata := metadata r;
     created_at := created_at r |}.

(** [await this.save()] of a row loaded as [prev]. *)
Definition save (now : Date) (prev r : row) : row := beforeUpdate now prev r.

(** [messages[type] || messages['won']] *)
Definition message_kind (type : string) : string :=
  if bool_decide (type = "applied") then "applied"
  else if bool_decide (type = "redeemed") then "redeemed"
  else if bool_decide (type = "cancelled") then "cancelled"
  else if bool_decide (type = "expired") then "expired"
  else "won".

Definition set_notified (d : Date) (r : row) : row :=
  {| id := id r; client_id := client_id r; prize_id := prize_id r;
     roulette_id := roulette_id r; status := status r;
     applied_date := applied_date r; redeemed_date := redeemed_date r;
     expires_date := expires_date r; auto_applied := auto_applied r;
     manual_redemption_required := manual_redemption_required r;
     redemption_code := redemption_code r;
     processed_by_user_id := processed_by_user_id r;
     processing_notes := processing_notes r;
     notification_sent := true;
     notification_sent_date := Some d;
     requires_verification := requires_verification r;
     verified := verified r; verified_by_user_id := verified_by_user_id r;
     verified_date := verified_date r;
     cancelled_reason := cancelled_reason r;
     cancelled_by_user_id := cancelled_by_user_id r;
     cancelled_date := cancelled_date r; metadata := metadata r;
     created_at := created_at r |}.

(** [sendNotification(type = 'won')] on a row just saved. *)
Definition sendNotification (e : Env) (type : string)
    (s : row * World) : row * World :=
  let '(r, w) := s in
  if negb (has_Notification (models e)) then (r, w)
  else
    let w' := emit [Ev_notification (client_id r) (message_kind type)] w in
    (save (now e) r (set_notified (now e) r), w').

Definition set_applied (d : Date) (user : option string) (r : row) : row :=
  {| id := id r; client_id := client_id r; prize_id := prize_id r;
     roulette_id := roulette_id r; status := applied;
     applied_date := Some d; redeemed_date := redeemed_date r;
     expires_date := expires_date r; auto_applied := true;
     manual_redemption_required := manual_redemption_required r;
     redemption_code := redemption_code r;
     processed_by_user_id := user;
     processing_notes := processing_notes r;
     notification_sent := notification_sent r;
     notification_sent_date := notification_sent_date r;
     requires_verification := requires_verification r;
     verified := verified r; verified_by_user_id := verified_by_user_id r;
     verified_date := verified_date r;
     cancelled_reason := cancelled_reason r;
     cancelled_by_user_id := cancelled_by_user_id r;
     cancelled_date := cancelled_date r; metadata := metadata r;
     created_at := created_at r |}.

(** [apply(processedByUserId = null)] *)
Definition apply (e : Env) (user : option string) (s : row * World)
  : outcome Message (verdict Prize.Reason) * (row * World) :=
  let '(r, w) := s in
  match canBeApplied (now e) r with
  | Denied reason => (Thrown reason, s)
  | Allowed =>
      if has_Prize (models e) then
        match prizes_tbl w !! prize_id r with
        | None => (Thrown Premio_no_encontrado, s)
        | Some prize =>
            match Prize.applyToClient (models e) (dir e) (client_id r) prize with
            | (Thrown Prize.Cliente_no_encontrado, evs) =>
                (Thrown Cliente_no_encontrado, (r, emit evs w))
            | (Returned result, evs) =>
                let w1 := emit evs w in
                if is_allowed result then
                  let r1 := save (now e) r (set_applied (now e) user r) in
                  let w2 := put_prize (Prize.incrementRedeemed prize) w1 in
                  let s3 :=
                    if negb (notification_sent r1)
                    then sendNotification e "won" (r1, w2)
                    else (r1, w2) in
                  (Returned result, s3)
                else (Returned result, (r, w1))
            end
        end
      else (Thrown No_se_pudo_aplicar_el_premio, s)
  end.

Definition set_redeemed (d : Date) (user notes : option string)
    (r : row) : row :=
  {| id := id r; client_id := client_id r; prize_id := prize_id r;
     roulette_id := roulette_id r; status := redeemed;
     applied_date := applied_date r; redeemed_date := Some d;
     expires_date := expires_date r; auto_applied := auto_applied r;
     manual_redemption_required := manual_redemption_required r;
     redemption_code := redemption_code r;
     processed_by_user_id := user;
     processing_notes := notes;
     notification_sent := notification_sent r;
     notification_sent_date := notification_sent_date r;
     requires_verification := requires_verification r;
     verified := verified r; verified_by_user_id := verified_by_user_id r;
     verified_date := verified_date r;
     cancelled_reason := cancelled_reason r;
     cancelled_by_user_id := cancelled_by_user_id r;
     cancelled_date := cancelled_date r; metadata := metadata r;
     created_at := created_at r |}.

(** [redeem(processedByUserId, notes = null)] *)
Definition redeem (e : Env) (user notes : option string) (s : row * World)
  : outcome Message unit * (row * World) :=
  let '(r, w) := s in
  if bool_decide (status r <> pending)
  then (Thrown (No_se_puede_canjear_un_premio (status r)), s)
  else if isExpired (now e) r then (Thrown El_premio_ha_expirado, s)
  else
    let r1 := save (now e) r (set_redeemed (now e) user notes r) in
    let w1 :=
      if has_Prize (models e) then
        match prizes_tbl w !! prize_id r1 with
        | Some prize => put_prize (Prize.incrementRedeemed prize) w
        | None => w
        end
      else w in
    (Returned tt, sendNotification e "redeemed" (r1, w1)).

Definition set_verified (d : Date) (user : option string) (r : row) : row :=
  {| id := id r; client_id := client_id r; prize_id := prize_id r;
     roulette_id := roulette_id r; status := status r;
     applied_date := applied_date r; redeemed_date := redeemed_date r;
     expires_date := expires_date r; auto_applied := auto_applied r;
     manual_redemption_required := manual_redemption_required r;
     redemption_code := redemption_code r;
     processed_by_user_id := processed_by_user_id r;
     processing_notes := processing_notes r;
     notification_sent := notification_sent r;
     notification_sent_date := notification_sent_date r;
     requires_verification := requires_verification r;
     verified := true; verified_by_user_id := user;
     verified_date := Some d;
     cancelled_reason := cancelled_reason r;
     cancelled_by_user_id := cancelled_by_user_id r;
     cancelled_date := cancelled_date r; metadata := metadata r;
     created_at := created_at r |}.

(** [verify(verifiedByUserId)] *)
Definition verify (e : Env) (user : option string) (s : row * World)
  : outcome Message unit * (row * World) :=
  let '(r, w) := s in
  let r1 := save (now e) r (set_verified (now e) user r) in
  let auto :=
    has_Prize (models e)
    && match prizes_tbl w !! prize_id r1 with
       | Some prize => prizes.auto_apply prize
       | None => false
       end in
  if auto then
    match apply e user (r1, w) with
    | (Thrown err, s') => (Thrown err, s')
    | (Returned _, s') => (Returned tt, s')
    end
  else (Returned tt, (r1, w)).

Definition set_cancelled (d : Date) (user reason : option string)
    (r : row) : row :=
  {| id := id r; client_id := client_id r; prize_id := prize_id r;
     roulette_id := roulette_id r; status := cancelled;
     applied_date := applied_date r; redeemed_date := redeemed_date r;
     expires_date := expires_date r; auto_applied := auto_applied r;
     manual_redemption_required := manual_redemption_required r;
     redemption_code := redemption_code r;
     processed_by_user_id := processed_by_user_id r;
     processing_notes := processing_notes r;
     notification_sent := notification_sent r;
     notification_sent_date := notification_sent_date r;
     requires_verification := requires_verification r;
     verified := verified r; verified_by_user_id := verified_by_user_id r;
     verified_date := verified_date r;
     cancelled_reason := reason;
     cancelled_by_user_id := user;
     cancelled_date := Some d; metadata := metadata r;
     created_at := created_at r |}.

(** [cancel(cancelledByUserId, reason)] *)
Definition cancel (e : Env) (user reason : option string) (s : row * World)
  : outcome Message unit * (row * World) :=
  let '(r, w) := s in
  if bool_decide (status r = applied \/ status r = redeemed)
  then (Thrown No_se_puede_cancelar_un_premio_ya_aplicado_o_canjeado, s)
  else
    let r1 := save (now e) r (set_cancelled (now e) user reason r) in
    (Returned tt, sendNotification e "cancelled" (r1, w)).

(** *** Sequences of lifecycle calls on one row *)

Inductive Call :=
| Call_apply (user : option string)
| Call_redeem (user notes : option string)
| Call_verify (user : option string)
| Call_cancel (user reason : option string).

Definition step (e : Env) (c : Call) (s : row * World) : row * World :=
  match c with
  | Call_apply u => snd (apply e u s)
  | Call_redeem u n => snd (redeem e u n s)
  | Call_verify u => snd (verify e u s)
  | Call_cancel u why => snd (cancel e u why s)
  end.

Fixpoint run (calls : list (Env * Call)) (s : row * World) : row * World :=
  match calls with
  | [] => s
  | (e, c) :: rest => run rest (step e c s)
  end.

(** Side effects performed so far: the dispatches in the trace. *)
Definition side_effects (w : World) : nat :=
  length (filter (fun ev => is_dispatch ev = true) (trace w)).

(** *** The [afterCreate] hook *)

Definition recordSpin (ro : roulettes.row) : roulettes.row :=
  {| roulettes.id := roulettes.id ro;
     roulettes.sectors_config := roulettes.sectors_config ro;
     roulettes.is_active := roulettes.is_active ro;
     roulettes.is_default := roulettes.is_default ro;
     roulettes.max_spins_per_day := roulettes.max_spins_per_day ro;
     roulettes.max_spins_per_week := roulettes.max_spins_per_week ro;
     roulettes.cooldown_minutes := roulettes.cooldown_minutes ro;
     roulettes.valid_from := roulettes.valid_from ro;
     roulettes.valid_until := roulettes.valid_until ro;
     roulettes.available_hours_start := roulettes.available_hours_start ro;
     roulettes.available_hours_end := roulettes.available_hours_end ro;
     roulettes.available_days := roulettes.available_days ro;
     roulettes.total_spins := roulettes.total_spins ro + 1;
     roulettes.total_prizes_awarded := roulettes.total_prizes_awarded ro + 1 |}.

(** [afterCreate]: the [prizes] and [roulettes] tables after the hook. *)
Definition afterCreate (m : Models)
    (tp : gmap string prizes.row) (tr : gmap string roulettes.row) (r : row)
  : gmap string prizes.row * gmap string roulettes.row :=
  let tp' :=
    if has_Prize m then
      match tp !! prize_id r with
      | Some prize => <[prizes.id prize := Prize.incrementAwarded prize]> tp
      | None => tp
      end
    else tp in
  let tr' :=
    match roulette_id r with
    | Some rid =>
        if bool_decide (rid <> EmptyString) && has_Roulette m then
          match tr !! rid with
          | Some ro => <[roulettes.id ro := recordSpin ro]> tr
          | None => tr
          end
        else tr
    | None => tr
    end in
  (tp', tr').

End PrizeWinning.

(** ** Weighted selector: [src/models/Roulette.js] *)

Module Roulette.
Import Clock roulettes.

Inductive Error :=
| La_suma_de_probabilidades_debe_ser_100
| Sector_debe_tener_prize_id_probability_y_color (number : nat)
| Premio_no_encontrado_para_sector (prize : option string)
| No_hay_sectores_configurados_en_la_ruleta.

Inductive Reason :=
| Ruleta_desactivada
| Ruleta_aun_no_valida
| Ruleta_expirada
| Ruleta_no_disponible_hoy
| Ruleta_no_disponible_en_este_horario
| Limite_diario_de_giros_alcanzado
| Limite_semanal_de_giros_alcanzado
| Debes_esperar_minutos (remainingMinutes : Z).

(** *** Validation on save *)












(** *** Selection *)








(** *** Availability and limits *)

Definition in_hours (now : Date) (ro : row) : bool :=
  match available_hours_start ro, available_hours_end ro with
  | Some start, Some end_ =>
      let currentTime := timeOfDay now in
      if bool_decide (end_ < start)
      then bool_decide (start <= currentTime) || bool_decide (currentTime <= end_)
      else bool_decide (start <= currentTime) && bool_decide (currentTime <= end_)
  | _, _ => true
  end.

Definition isAvailable (now : Date) (ro : row) : verdict Reason :=
  if negb (is_active ro) then Denied Ruleta_desactivada
  else if bool_decide (now < valid_from ro) then Denied Ruleta_aun_no_valida
  else if match valid_until ro with
          | Some u => bool_decide (u < now)
          | None => false
          end then Denied Ruleta_expirada
  else if negb (bool_decide (getDay now ∈ available_days ro))
       then Denied Ruleta_no_disponible_hoy
  else if negb (in_hours now ro) then Denied Ruleta_no_disponible_en_este_horario
  else Allowed.

(** The rows matched by
    [{ client_id, roulette_id: this.id, created_at: { [Op.gte]: start } }]. *)
Definition spinsSince (winnings : list prize_winnings.row)
    (clientId : string) (ro : row) (start : Date) : list prize_winnings.row :=
  filter (fun w => prize_winnings.client_id w = clientId
                   /\ prize_winnings.roulette_id w = Some (id ro)
                   /\ start <= prize_winnings.created_at w) winnings.

(** [findOne({ where, order: [['created_at', 'DESC']] })]: the creation
    time of the latest matching row. *)
Definition latest (rows : list prize_winnings.row) : option Date :=
  foldr (fun w acc =>
           match acc with
           | Some d => Some (Z.max d (prize_winnings.created_at w))
           | None => Some (prize_winnings.created_at w)
           end) None rows.

(** [Math.ceil(x / 60000)] *)
Definition ceil_minutes (x : Z) : Z := - ((- x) `div` ms_per_minute).

Definition canClientSpin (winnings : list prize_winnings.row)
    (now : Date) (clientId : string) (ro : row) : verdict Reason :=
  match isAvailable now ro with
  | Denied reason => Denied reason
  | Allowed =>
      let daily :=
        match truthyZ (max_spins_per_day ro) with
        | Some cap =>
            bool_decide (cap <= Z.of_nat (length
              (spinsSince winnings clientId ro (todayStart now))))
        | None => false
        end in
      if daily then Denied Limite_diario_de_giros_alcanzado
      else
        let weekly :=
          match truthyZ (max_spins_per_week ro) with
          | Some cap =>
              bool_decide (cap <= Z.of_nat (length
                (spinsSince winnings clientId ro (weekStart now))))
          | None => false
          end in
        if weekly then Denied Limite_semanal_de_giros_alcanzado
        else if bool_decide (0 < cooldown_minutes ro) then
          let cooldownStart := subMinutes now (cooldown_minutes ro) in
          match latest (spinsSince winnings clientId ro cooldownStart) with
          | Some created =>
              Denied (Debes_esperar_minutos
                (ceil_minutes (created + cooldown_minutes ro * ms_per_minute - now)))
          | None => Allowed
          end
        else Allowed
  end.

End Roulette.

(** ** Creation of a won prize and the draw that leads to it *)

Module Engine.
Import Clock.

(** The tables the engine works on, with the cursor of the random
    source. *)
Record DB := mkDB {
  tbl_prizes : gmap string prizes.row;
  tbl_roulettes : gmap string roulettes.row;
  tbl_winnings : list prize_winnings.row;
  cursor : nat
}.

(** The row [PrizeWinning.create] is given for a draw: the column
    defaults of the model, [status] being [pending]. *)
Definition new_winning (rid client pid : string) (roulette : option string)
    (manual verification : bool) : prize_winnings.row :=
  {| prize_winnings.id := rid; prize_winnings.client_id := client;
     prize_winnings.prize_id := pid; prize_winnings.roulette_id := roulette;
     prize_winnings.status := pending;
     prize_winnings.applied_date := None; prize_winnings.redeemed_date := None;
     prize_winnings.expires_date := None; prize_winnings.auto_applied := false;
     prize_winnings.manual_redemption_required := manual;
     prize_winnings.redemption_code := None;
     prize_winnings.processed_by_user_id := None;
     prize_winnings.processing_notes := None;
     prize_winnings.notification_sent := false;
     prize_winnings.notification_sent_date := None;
     prize_winnings.requires_verification := verification;
     prize_winnings.verified := false;
     prize_winnings.verified_by_user_id := None;
     prize_winnings.verified_date := None;
     prize_winnings.cancelled_reason := None;
     prize_winnings.cancelled_by_user_id := None;
     prize_winnings.cancelled_date := None;
     prize_winnings.metadata := None;
     prize_winnings.created_at := 0 |}.

Definition set_created_at (d : Date) (r : prize_winnings.row)
  : prize_winnings.row :=
  {| prize_winnings.id := prize_winnings.id r;
     prize_winnings.client_id := prize_winnings.client_id r;
     prize_winnings.prize_id := prize_winnings.prize_id r;
     prize_winnings.roulette_id := prize_winnings.roulette_id r;
     prize_winnings.status := prize_winnings.status r;
     prize_winnings.applied_date := prize_winnings.applied_date r;
     prize_winnings.redeemed_date := prize_winnings.redeemed_date r;
     prize_winnings.expires_date := prize_winnings.expires_date r;
     prize_winnings.auto_applied := prize_winnings.auto_applied r;
     prize_winnings.manual_redemption_required :=
       prize_winnings.manual_redemption_required r;
     prize_winnings.redemption_code := prize_winnings.redemption_code r;
     prize_winnings.processed_by_user_id := prize_winnings.processed_by_user_id r;
     prize_winnings.processing_notes := prize_winnings.processing_notes r;
     prize_winnings.notification_sent := prize_winnings.notification_sent r;
     prize_winnings.notification_sent_date :=
       prize_winnings.notification_sent_date r;
     prize_winnings.requires_verification := prize_winnings.requires_verification r;
     prize_winnings.verified := prize_winnings.verified r;
     prize_winnings.verified_by_user_id := prize_winnings.verified_by_user_id r;
     prize_winnings.verified_date := prize_winnings.verified_date r;
     prize_winnings.cancelled_reason := prize_winnings.cancelled_reason r;
     prize_winnings.cancelled_by_user_id := prize_winnings.cancelled_by_user_id r;
     prize_winnings.cancelled_date := prize_winnings.cancelled_date r;
     prize_winnings.metadata := prize_winnings.metadata r;
     prize_winnings.created_at := d |}.

(** [PrizeWinning.create(values)] as Sequelize runs it on this model:
    the [beforeCreate] hook, the insert with the timestamp [created_at]
    (the models are defined with [timestamps] and [underscored]), then
    the [afterCreate] hook. *)
Definition create (e : PrizeWinning.Env) (rng : PrizeWinning.Random)
    (values : prize_winnings.row) (db : DB)
  : outcome PrizeWinning.Message prize_winnings.row * DB :=
  match PrizeWinning.beforeCreate e (tbl_prizes db) rng (tbl_winnings db)
          (cursor db) values with
  | (Thrown err, pos) =>
      (Thrown err,
       {| tbl_prizes := tbl_prizes db; tbl_roulettes := tbl_roulettes db;
          tbl_winnings := tbl_winnings db; cursor := pos |})
  | (Returned r, pos) =>
      let r := set_created_at (PrizeWinning.now e) r in
      let '(tp, tr) :=
        PrizeWinning.afterCreate (PrizeWinning.models e)
          (tbl_prizes db) (tbl_roulettes db) r in
      (Returned r,
       {| tbl_prizes := tp; tbl_roulettes := tr;
          tbl_winnings := tbl_winnings db ++ [r]; cursor := pos |})
  end.

Inductive DrawError :=
| NotFound
| Unavailable (reason : Prize.Reason)
| LimitExceeded (reason : Prize.Reason)
| CreationFailed (err : PrizeWinning.Message).

(** Modelled from the spec: the draw that awards a given prize to a given
    client, whose code (the caller of [isAvailable], [checkLimits] and
    [PrizeWinning.create]) is not among the sources.  The specification
    gives the flow as limit and availability checks first, then the
    creation of a pending won-prize row; the checks and the creation are
    the source's own. *)
Definition draw (e : PrizeWinning.Env) (rng : PrizeWinning.Random)
    (values : prize_winnings.row) (db : DB)
  : outcome DrawError prize_winnings.row * DB :=
  match tbl_prizes db !! prize_winnings.prize_id values with
  | None => (Thrown NotFound, db)
  | Some prize =>
      match Prize.isAvailable (PrizeWinning.now e) prize with
      | Denied reason => (Thrown (Unavailable reason), db)
      | Allowed =>
          match Prize.checkLimits (PrizeWinning.models e) (tbl_winnings db)
                  (PrizeWinning.now e) prize with
          | Denied reason => (Thrown (LimitExceeded reason), db)
          | Allowed =>
              match create e rng values db with
              | (Returned r, db') => (Returned r, db')
              | (Thrown err, db') => (Thrown (CreationFailed err), db')
              end
          end
      end
  end.

(** A sequence of draws. *)
Fixpoint draws (rng : PrizeWinning.Random)
    (reqs : list (PrizeWinning.Env * prize_winnings.row)) (db : DB) : DB :=
  match reqs with
  | [] => db
  | (e, values) :: rest => draws rng rest (snd (draw e rng values db))
  end.

End Engine.

(** ** Clients: [src/models/Client.js] *)

Module clients.
Import Clock.

(** What a [Date] object shows through [getFullYear()], [getMonth()] and
    [getDate()]. *)
Record civil := mkCivil {
  fullYear : Z;
  month : Z;
  date : Z
}.

(** [date_of_birth] is kept as the calendar fields of
    [new Date(this.date_of_birth)], [None] when the column is null;
    [last_checkin_date], a DATEONLY, as the number of the day since the
    epoch; [memberships] holds the [membership_type_id] of the active
    memberships in the order they are loaded. *)
Record row := mk {
  id : string;
  date_of_birth : option civil;
  registration_date : Date;
  memberships : list string;
  total_points : Z;
  consecutive_days : Z;
  max_consecutive_days : Z;
  last_checkin_date : option Z
}.
End clients.

Module Client.
Import Clock clients.

(** [getAge()], [today] being the calendar fields of [new Date()]. *)
Definition getAge (today : civil) (c : row) : option Z :=
  match date_of_birth c with
  | None => None
  | Some birthDate =>
      let age := fullYear today - fullYear birthDate in
      let monthDiff := month today - month birthDate in
      if bool_decide (monthDiff < 0)
         || (bool_decide (monthDiff = 0)
             && bool_decide (date today < date birthDate))
      then Some (age - 1)
      else Some age
  end.





(** The day of the local calendar on which a [Date] falls, which
    [toDateString()] prints, and the day of the UTC calendar, which
    [toISOString().split('T')[0]] prints; [offset] is the zone offset in
    milliseconds, local time minus UTC. *)
Definition localDay (d : Date) : Z := d `div` ms_per_day.
Definition utcDay (offset : Z) (d : Date) : Z := (d - offset) `div` ms_per_day.

(** [new Date(dateonly)]: a date without time is read as midnight UTC. *)
Definition parseDateOnly (offset : Z) (day : Z) : Date :=
  day * ms_per_day + offset.

Definition set_streak (cd mx : Z) (last : option Z) (c : row) : row :=
  {| id := id c; date_of_birth := date_of_birth c;
     registration_date := registration_date c; memberships := memberships c;
     total_points := total_points c; consecutive_days := cd;
     max_consecutive_days := mx; last_checkin_date := last |}.

(** [updateConsecutiveDays(checkinDate)] *)
Definition updateConsecutiveDays (offset : Z) (checkinDate : Date) (c : row) : row :=
  let today := checkinDate in
  let yesterday := subDays today 1 in
  let cd :=
    match last_checkin_date c with
    | None => 1
    | Some stored =>
        let lastCheckin := parseDateOnly offset stored in
        if bool_decide (localDay lastCheckin = localDay yesterday)
        then consecutive_days c + 1
        else if bool_decide (localDay lastCheckin <> localDay today)
             then 1
             else consecutive_days c
    end in
  let mx :=
    if bool_decide (max_consecutive_days c < cd) then cd
    else max_consecutive_days c in
  set_streak cd mx (Some (utcDay offset today)) c.

End Client.

(** ** Eligibility of a client for a prize: [src/models/Prize.js] *)

Module Eligibility.
Import Clock.

(** The columns of the prize that only [checkClientEligibility] reads. *)
Record rules := mkRules {
  minimum_age : option Z;
  minimum_membership_days : Z;
  excluded_membership_types : option (list string)
}.

Inductive Reason :=
| Modelo_Cliente_no_disponible
| Cliente_no_encontrado
| Edad_minima_requerida (years : Z)
| Requiere_dias_de_membresia (days : Z)
| Tipo_de_membresia_no_elegible
| Limite_por_cliente_alcanzado.

(** A number or [null] in a relational comparison: [null] counts as 0. *)
Definition number_of (o : option Z) : Z :=
  match o with Some n => n | None => 0 end.

(** [minimum_age && client.getAge() < minimum_age] *)
Definition too_young (today : clients.civil) (client : clients.row)
    (ru : rules) : option Z :=
  match truthyZ (minimum_age ru) with
  | Some n =>
      if bool_decide (number_of (Client.getAge today client) < n)
      then Some n else None
  | None => None
  end.

(** [Math.floor((new Date() - new Date(registration_date)) / 86400000)] *)
Definition membershipDays (now : Date) (client : clients.row) : Z :=
  (now - clients.registration_date client) `div` ms_per_day.

Definition too_recent (now : Date) (client : clients.row) (ru : rules) : bool :=
  bool_decide (0 < minimum_membership_days ru)
  && bool_decide (membershipDays now client < minimum_membership_days ru).

(** [client.memberships] is loaded only when the ClientMembership model
    is registered. *)
Definition excluded (m : Models) (client : clients.row) (ru : rules) : bool :=
  match excluded_membership_types ru with
  | Some types =>
      has_ClientMembership m
      && match clients.memberships client with
         | currentMembershipTypeId :: _ =>
             bool_decide (currentMembershipTypeId ∈ types)
         | [] => false
         end
  | None => false
  end.

(** [PrizeWinning.count({ where: { client_id, prize_id } })] *)
Definition clientCount (winnings : list prize_winnings.row)
    (clientId pid : string) : Z :=
  Z.of_nat (length (filter
    (fun w => prize_winnings.client_id w = clientId
              /\ prize_winnings.prize_id w = pid) winnings)).

Definition capped (m : Models) (winnings : list prize_winnings.row)
    (clientId : string) (p : prizes.row) : bool :=
  match truthyZ (prizes.max_per_client p) with
  | Some cap =>
      has_PrizeWinning m
      && bool_decide (cap <= clientCount winnings clientId (prizes.id p))
  | None => false
  end.

(** [Prize.prototype.checkClientEligibility(clientId)] *)
Definition checkClientEligibility (m : Models)
    (tc : gmap string clients.row) (winnings : list prize_winnings.row)
    (today : clients.civil) (now : Date)
    (clientId : string) (p : prizes.row) (ru : rules) : verdict Reason :=
  if negb (has_Client m) then Denied Modelo_Cliente_no_disponible
  else
    match tc !! clientId with
    | None => Denied Cliente_no_encontrado
    | Some client =>
        match too_young today client ru with
        | Some n => Denied (Edad_minima_requerida n)
        | None =>
            if too_recent now client ru
            then Denied (Requiere_dias_de_membresia (minimum_membership_days ru))
            else if excluded m client ru
                 then Denied Tipo_de_membresia_no_elegible
            else if capped m winnings clientId p
                 then Denied Limite_por_cliente_alcanzado
            else Allowed
        end
    end.

End Eligibility.

(** ** Queries and expiry of won prizes: [src/models/PrizeWinning.js] *)

Module PrizeWinningQueries.
Import Clock prize_winnings.

(** [Math.ceil(x / 86400000)] *)
Definition ceil_days (x : Z) : Z := - ((- x) `div` ms_per_day).

(** [getDaysUntilExpiration()] *)
Definition getDaysUntilExpiration (now : Date) (r : row) : option Z :=
  match expires_date r with
  | None => None
  | Some expiration => Some (Z.max 0 (ceil_days (expiration - now)))
  end.

(** [findByRedemptionCode(code)]: [findOne] with
    [{ redemption_code: code, status: 'pending' }]; of several matching
    rows the first of the table is taken. *)
Definition findByRedemptionCode (winnings : list row) (code : string)
  : option row :=
  head (filter (fun w => redemption_code w = Some code /\ status w = pending)
               winnings).

End PrizeWinningQueries.

(** ** Deactivation of a scan gate: [src/models/QRCode.js] *)

Module QRCodeAdmin.
Import Clock QRCode.

(** [deactivate(reason)].  [merge] gives the JSON of
    [{ ...this.metadata, deactivation_reason, deactivated_at }]. *)
Definition deactivate
    (merge : option string -> option string -> Date -> option string)
    (now : Date) (reason : option string) (q : t) : t :=
  {| is_active := false;
     is_used := is_used q;
     used_date := used_date q;
     used_by_client_id := used_by_client_id q;
     prize_category := prize_category q;
     valid_from := valid_from q;
     valid_until := valid_until q;
     max_uses := max_uses q;
     current_uses := current_uses q;
     time_restricted := time_restricted q;
     allowed_hours_start := allowed_hours_start q;
     allowed_hours_end := allowed_hours_end q;
     metadata := merge (metadata q) reason now;
     scan_count := scan_count q;
     last_scan_date := last_scan_date q |}.

End QRCodeAdmin.

(** ** Product categories: [src/models/ProductCategory.js] *)

Module ProductCategory.

Record row := mk {
  id : string;
  name : string;
  slug : option string;
  parent_category_id : option string
}.

Definition code (c : ascii) : nat := nat_of_ascii c.

Definition is_upper (c : ascii) : bool := (65 <=? code c)%nat && (code c <=? 90)%nat.
Definition is_lower (c : ascii) : bool := (97 <=? code c)%nat && (code c <=? 122)%nat.
Definition is_digit (c : ascii) : bool := (48 <=? code c)%nat && (code c <=? 57)%nat.

(** The characters below 128 that [\s] matches: tab, line feed, vertical
    tab, form feed, carriage return and space. *)
Definition is_space (c : ascii) : bool :=
  ((9 <=? code c)%nat && (code c <=? 13)%nat) || (code c =? 32)%nat.

Definition is_dash (c : ascii) : bool := (code c =? 45)%nat.

Definition dash : ascii := "-"%char.

(** [toLowerCase()] on a character below 128. *)
Definition lower (c : ascii) : ascii :=
  if is_upper c then ascii_of_nat (code c + 32) else c.

(** [replace(/[^a-z0-9\s-]/g, '')] *)
Definition strip (l : list ascii) : list ascii :=
  List.filter (fun c => is_lower c || is_digit c || is_space c || is_dash c) l.

(** [replace(/\s+/g, '-')]: [inside] tells that the previous character
    was part of the run being replaced. *)
Fixpoint spaces_to_dash (inside : bool) (l : list ascii) : list ascii :=
  match l with
  | [] => []
  | c :: rest =>
      if is_space c
      then if inside then spaces_to_dash true rest
           else dash :: spaces_to_dash true rest
      else c :: spaces_to_dash false rest
  end.

(** [replace(/-+/g, '-')] *)
Fixpoint squeeze_dashes (inside : bool) (l : list ascii) : list ascii :=
  match l with
  | [] => []
  | c :: rest =>
      if is_dash c
      then if inside then squeeze_dashes true rest
           else dash :: squeeze_dashes true rest
      else c :: squeeze_dashes false rest
  end.

(** [trim('-')]: [String.prototype.trim] takes no argument and removes
    white space at both ends. *)
Fixpoint trim_start (l : list ascii) : list ascii :=
  match l with
  | c :: rest => if is_space c then trim_start rest else l
  | [] => []
  end.

Definition trim (l : list ascii) : list ascii :=
  rev (trim_start (rev (trim_start l))).

(** The chain of string operations of the two hooks. *)
Definition slugify_chars (l : list ascii) : list ascii :=
  trim (squeeze_dashes false (spaces_to_dash false (strip (map lower l)))).

Definition slugify (name : string) : string :=
  String.string_of_list_ascii (slugify_chars (String.list_ascii_of_string name)).

Definition falsy (o : option string) : bool :=
  match o with
  | None => true
  | Some s => bool_decide (s = EmptyString)
  end.

Definition set_slug (s : option string) (c : row) : row :=
  {| id := id c; name := name c; slug := s;
     parent_category_id := parent_category_id c |}.

(** The [beforeCreate] hook. *)
Definition beforeCreate (c : row) : row :=
  if falsy (slug c) && negb (bool_decide (name c = EmptyString))
  then set_slug (Some (slugify (name c))) c
  else c.

(** The [beforeUpdate] hook; [prev] holds the values last loaded or
    saved. *)
Definition beforeUpdate (prev c : row) : row :=
  if bool_decide (name prev <> name c) && negb (bool_decide (slug prev <> slug c))
  then set_slug (Some (slugify (name c))) c
  else c.

(** [getFullPath()].  The method calls itself on the parent; [fuel] bounds
    the depth of the calls and [None] means that the bound was reached. *)
Fixpoint getFullPath (fuel : nat) (tbl : gmap string row) (c : row)
  : option (list string) :=
  match fuel with
  | O => None
  | S fuel' =>
      let path := [name c] in
      if falsy (parent_category_id c) then Some path
      else
        match parent_category_id c with
        | None => Some path
        | Some pid =>
            match tbl !! pid with
            | Some parent =>
                match getFullPath fuel' tbl parent with
                | Some parentPath => Some (parentPath ++ path)
                | None => None
                end
            | None => Some path
            end
        end
  end.

End ProductCategory.

(** ** Staff accounts: [src/models/User.js] *)

Module User.
Import Clock.

Record row := mk {
  login_attempts : Z;
  locked_until : option Date;
  last_login : option Date
}.

Definition maxAttempts : Z := 5.
Definition lockTime : Z := 30 * 60 * 1000.

(** [isLocked()] *)
Definition isLocked (now : Date) (u : row) : bool :=
  match locked_until u with
  | Some until => bool_decide (now < until)
  | None => false
  end.

(** [incrementLoginAttempts()] *)
Definition incrementLoginAttempts (now : Date) (u : row) : row :=
  let attempts := login_attempts u + 1 in
  {| login_attempts := attempts;
     locked_until :=
       if bool_decide (maxAttempts <= attempts) then Some (now + lockTime)
       else locked_until u;
     last_login := last_login u |}.

(** [resetLoginAttempts()] *)
Definition resetLoginAttempts (now : Date) (u : row) : row :=
  {| login_attempts := 0; locked_until := None; last_login := Some now |}.

(** Failed logins one after the other, at the given times. *)
Fixpoint failures (times : list Date) (u : row) : row :=
  match times with
  | [] => u
  | t :: rest => failures rest (incrementLoginAttempts t u)
  end.

End User.

(** * Vocabulary of the statements *)

(** Everything [QRCode.use] checks except the number of uses left. *)
Definition usable_at (now : Clock.Date) (q : QRCode.t) : Prop :=
  QRCode.is_active q = true
  /\ QRCode.valid_from q <= now
  /\ (forall u, QRCode.valid_until q = Some u -> now <= u)
  /\ QRCode.isValidTime now q = true.

(** The remaining uses a use attempt reports, if it succeeds. *)
Definition remaining_of (o : outcome QRCode.Error QRCode.UseResult) : option Z :=
  match o with
  | Returned res => Some (QRCode.uses_remaining res)
  | Thrown _ => None
  end.

(** A gate with three uses, valid from the epoch, without restrictions. *)
Definition gate3 : QRCode.t :=
  {| QRCode.is_active := true; QRCode.is_used := false;
     QRCode.used_date := None; QRCode.used_by_client_id := None;
     QRCode.prize_category := QRCode.premium;
     QRCode.valid_from := 0; QRCode.valid_until := None;
     QRCode.max_uses := 3; QRCode.current_uses := 0;
     QRCode.time_restricted := false;
     QRCode.allowed_hours_start := None; QRCode.allowed_hours_end := None;
     QRCode.metadata := None; QRCode.scan_count := 0;
     QRCode.last_scan_date := None |}.

(** The calls that change a collaborator's state: membership extension,
    points credit, free-product order. *)
Definition is_effect (e : Event) : bool :=
  match e with
  | Ev_membership_extended _ _ | Ev_points_added _ _
  | Ev_free_product_order _ _ _ => true
  | _ => false
  end.

Definition dispatches (evs : list Event) : nat :=
  length (filter (fun ev => is_dispatch ev = true) evs).

Definition effects (evs : list Event) : nat :=
  length (filter (fun ev => is_effect ev = true) evs).

(** Collaborator state changes made so far. *)
Definition collaborator_calls (w : PrizeWinning.World) : nat :=
  effects (PrizeWinning.trace w).

(** The columns the limit queries select on; no lifecycle call writes them. *)
Definition same_keys (r r' : prize_winnings.row) : Prop :=
  prize_winnings.prize_id r' = prize_winnings.prize_id r
  /\ prize_winnings.client_id r' = prize_winnings.client_id r
  /\ prize_winnings.roulette_id r' = prize_winnings.roulette_id r
  /\ prize_winnings.created_at r' = prize_winnings.created_at r.

(** The shapes a lifecycle call can take, from the state before to the
    state after: nothing happens to the status; the prize is applied with
    its side effect; the prize is redeemed; the prize is cancelled. *)
Definition lifecycle_step (s s' : prize_winnings.row * PrizeWinning.World) : Prop :=
  let st := prize_winnings.status s.1 in
  let st' := prize_winnings.status s'.1 in
  let quiet :=
    PrizeWinning.side_effects s'.2 = PrizeWinning.side_effects s.2
    /\ collaborator_calls s'.2 = collaborator_calls s.2 in
  (st' = st /\ quiet)
  \/ (st = pending /\ st' = applied
      /\ PrizeWinning.side_effects s'.2 = S (PrizeWinning.side_effects s.2)
      /\ (collaborator_calls s'.2 <= S (collaborator_calls s.2))%nat)
  \/ (st = pending /\ st' = redeemed /\ quiet)
  \/ (st <> applied /\ st <> redeemed /\ st' = cancelled /\ quiet).

(** A pending won prize, its prize, and an environment with every model
    registered. *)
Definition all_models : Models :=
  {| has_Prize := true; has_PrizeWinning := true; has_Roulette := true;
     has_Client := true; has_ClientMembership := true;
     has_Notification := true; has_Order := true; has_OrderItem := true;
     has_Product := true |}.

Definition open_directory : Directory :=
  {| client_exists := fun _ => true; active_membership := fun _ => true;
     product_exists := fun _ => true |}.

Definition env_at (t : Clock.Date) : PrizeWinning.Env :=
  {| PrizeWinning.models := all_models; PrizeWinning.dir := open_directory;
     PrizeWinning.now := t |}.

Definition prize_A : prizes.row :=
  {| prizes.id := "A"; prizes.name := "Semana gratis";
     prizes.type := membership_days; prizes.value := 7%Q;
     prizes.free_product_id := None; prizes.product_quantity := 1;
     prizes.is_active := true; prizes.stock_quantity := Some 5;
     prizes.awarded_count := 0; prizes.redeemed_count := 0;
     prizes.valid_from := 0; prizes.valid_until := None;
     prizes.auto_apply := true; prizes.expiration_days := None;
     prizes.max_per_client := None; prizes.max_per_day := Some 1;
     prizes.max_per_week := None |}.

Definition won (rid client : string) (st : Status) (t : Clock.Date)
  : prize_winnings.row :=
  {| prize_winnings.id := rid; prize_winnings.client_id := client;
     prize_winnings.prize_id := "A"; prize_winnings.roulette_id := Some "R";
     prize_winnings.status := st;
     prize_winnings.applied_date := None; prize_winnings.redeemed_date := None;
     prize_winnings.expires_date := None; prize_winnings.auto_applied := false;
     prize_winnings.manual_redemption_required := false;
     prize_winnings.redemption_code := None;
     prize_winnings.processed_by_user_id := None;
     prize_winnings.processing_notes := None;
     prize_winnings.notification_sent := false;
     prize_winnings.notification_sent_date := None;
     prize_winnings.requires_verification := false;
     prize_winnings.verified := false;
     prize_winnings.verified_by_user_id := None;
     prize_winnings.verified_date := None;
     prize_winnings.cancelled_reason := None;
     prize_winnings.cancelled_by_user_id := None;
     prize_winnings.cancelled_date := None;
     prize_winnings.metadata := None;
     prize_winnings.created_at := t |}.

Definition world_A : PrizeWinning.World :=
  {| PrizeWinning.prizes_tbl := {[ "A" := prize_A ]};
     PrizeWinning.trace := [] |}.

(** One entry of a history trail, as the specification describes it. *)
Record HistoryEntry := mkEntry {
  h_status : Status;
  h_previous : Status;
  h_timestamp : Clock.Date;
  h_reason : option string
}.

(** The stored state keeps a history trail, read off the state by
    [trail], when every call that changes the status appends one entry with
    the new status, the previous status and the time of the call. *)
Definition keeps_history
    (trail : prize_winnings.row * PrizeWinning.World -> list HistoryEntry) : Prop :=
  forall e c s,
    prize_winnings.status (PrizeWinning.step e c s).1 <> prize_winnings.status s.1 ->
    exists reason,
      trail (PrizeWinning.step e c s)
      = trail s ++ [ {| h_status := prize_winnings.status (PrizeWinning.step e c s).1;
                        h_previous := prize_winnings.status s.1;
                        h_timestamp := PrizeWinning.now e;
                        h_reason := reason |} ].

(** The characters a redemption code may hold. *)
Definition alphabet : list ascii :=
  String.list_ascii_of_string PrizeWinning.chars.

(** A random source whose values are in [0, 1), as [Math.random()]'s are. *)
Definition unit_interval (rng : PrizeWinning.Random) : Prop :=
  forall n, (0 <= rng n)%Q /\ (rng n < 1)%Q.

Definition well_formed_code (code : string) : Prop :=
  String.length code = 8%nat
  /\ Forall (fun c => c ∈ alphabet) (String.list_ascii_of_string code).

(** The [j]-th code generated from the cursor [pos] is already stored. *)
Definition collides (rng : PrizeWinning.Random)
    (stored : list prize_winnings.row) (pos j : nat) : Prop :=
  PrizeWinning.existing stored (PrizeWinning.randomCode rng (pos + 8 * j)) = true.

(** The characters left out because they look alike. *)
Definition ambiguous : list ascii := ["0"; "O"; "1"; "I"]%char.

(** A random source that gives [0] eight times, then [1/2] forever, and a
    table that already holds the code of eight zeros. *)
Definition rng_repeat : PrizeWinning.Random :=
  fun n => if (n <? 8)%nat then 0%Q else (1 # 2)%Q.

Definition with_code (code : string) (r : prize_winnings.row)
  : prize_winnings.row :=
  PrizeWinning.set_code_expiry (Some code) (prize_winnings.expires_date r) r.

Definition stored_A : list prize_winnings.row :=
  [with_code "AAAAAAAA" (won "w0" "B" pending 100)].










Definition sector_of (o : nat) (prize : string) (weight : Q) (colour : string)
  : roulettes.sector :=
  {| roulettes.oid := o; roulettes.prize_id := Some prize;
     roulettes.probability := Some weight; roulettes.color := Some colour |}.

Definition prizes_A : gmap string prizes.row := {[ "A" := prize_A ]}.



Definition config_30_70 : list roulettes.sector :=
  [sector_of 0 "A" (30 # 1) "#FF0000"; sector_of 1 "A" (70 # 1) "#00FF00"].



(** No prize with a stock ceiling has been awarded more often than the
    ceiling allows. *)
Definition stock_respected (tp : gmap string prizes.row) : Prop :=
  forall k p s, tp !! k = Some p -> prizes.stock_quantity p = Some s ->
                prizes.awarded_count p <= s.

(** Each prize is stored under its own [id], the primary key. *)
Definition keyed_by_id (tp : gmap string prizes.row) : Prop :=
  forall k p, tp !! k = Some p -> prizes.id p = k.

(** A roulette that allows one spin a day and asks for thirty minutes
    between spins, and the tables of a small gym. *)
Definition roulette_R : roulettes.row :=
  {| roulettes.id := "R"; roulettes.sectors_config := config_30_70;
     roulettes.is_active := true; roulettes.is_default := true;
     roulettes.max_spins_per_day := Some 1;
     roulettes.max_spins_per_week := None;
     roulettes.cooldown_minutes := 30;
     roulettes.valid_from := 0; roulettes.valid_until := None;
     roulettes.available_hours_start := None;
     roulettes.available_hours_end := None;
     roulettes.available_days := [0; 1; 2; 3; 4; 5; 6];
     roulettes.total_spins := 0; roulettes.total_prizes_awarded := 0 |}.

Definition db_A : Engine.DB :=
  {| Engine.tbl_prizes := prizes_A;
     Engine.tbl_roulettes := {[ "R" := roulette_R ]};
     Engine.tbl_winnings := [];
     Engine.cursor := 0 |}.

(** 09:00 and 10:00 of the first day, in milliseconds. *)
Definition at_0900 : Clock.Date := 32400000.
Definition at_1000 : Clock.Date := 36000000.




(** The four rules of eligibility, in plain terms. *)
Definition old_enough (today : clients.civil) (client : clients.row)
    (ru : Eligibility.rules) : Prop :=
  forall n, Eligibility.minimum_age ru = Some n -> n <> 0 ->
            n <= Eligibility.number_of (Client.getAge today client).

Definition member_long_enough (now : Clock.Date) (client : clients.row)
    (ru : Eligibility.rules) : Prop :=
  0 < Eligibility.minimum_membership_days ru ->
  Eligibility.minimum_membership_days ru * Clock.ms_per_day
  <= now - clients.registration_date client.

Definition membership_not_excluded (m : Models) (client : clients.row)
    (ru : Eligibility.rules) : Prop :=
  forall types current rest,
    Eligibility.excluded_membership_types ru = Some types ->
    has_ClientMembership m = true ->
    clients.memberships client = current :: rest ->
    current ∉ types.

Definition under_client_cap (m : Models) (winnings : list prize_winnings.row)
    (clientId : string) (p : prizes.row) : Prop :=
  forall cap, prizes.max_per_client p = Some cap -> cap <> 0 ->
              has_PrizeWinning m = true ->
              Eligibility.clientCount winnings clientId (prizes.id p) < cap.

Definition client_born (y mo d : Z) : clients.row :=
  {| clients.id := "C";
     clients.date_of_birth := Some (clients.mkCivil y mo d);
     clients.registration_date := 0;
     clients.memberships := ["basic"];
     clients.total_points := 0;
     clients.consecutive_days := 0;
     clients.max_consecutive_days := 0;
     clients.last_checkin_date := None |}.

Definition client_unknown_age : clients.row :=
  {| clients.id := "D";
     clients.date_of_birth := None;
     clients.registration_date := 0;
     clients.memberships := [];
     clients.total_points := 0;
     clients.consecutive_days := 0;
     clients.max_consecutive_days := 0;
     clients.last_checkin_date := None |}.

Definition adults_only : Eligibility.rules :=
  {| Eligibility.minimum_age := Some 18;
     Eligibility.minimum_membership_days := 30;
     Eligibility.excluded_membership_types := Some ["trial"] |}.

(** A won-prize row is a spin of the client on the roulette. *)
Definition spin_of (clientId : string) (ro : roulettes.row)
    (w : prize_winnings.row) : Prop :=
  prize_winnings.client_id w = clientId
  /\ prize_winnings.roulette_id w = Some (roulettes.id ro).

(** The client has spun the roulette fewer than [cap] times since
    [start], for every cap the column configures. *)
Definition spins_below (column : option Z) (winnings : list prize_winnings.row)
    (clientId : string) (ro : roulettes.row) (start : Clock.Date) : Prop :=
  forall cap, column = Some cap -> cap <> 0 ->
    Z.of_nat (length (Roulette.spinsSince winnings clientId ro start)) < cap.

(** No spin of the client on the roulette falls in the cooldown. *)
Definition cooled_down (winnings : list prize_winnings.row) (now : Clock.Date)
    (clientId : string) (ro : roulettes.row) : Prop :=
  0 < roulettes.cooldown_minutes ro ->
  forall w, w ∈ winnings -> spin_of clientId ro w ->
    prize_winnings.created_at w
    < now - roulettes.cooldown_minutes ro * Clock.ms_per_minute.


(** A pending won prize that expires at [e]. *)
Definition won_until (e : Clock.Date) : prize_winnings.row :=
  PrizeWinning.set_code_expiry None (Some e) (won "w1" "C" pending 0).


(** What no lifecycle call changes in a row, and what it changes one way
    only: a verified row stays verified. *)
Definition lifecycle_frame (r r' : prize_winnings.row) : Prop :=
  prize_winnings.id r' = prize_winnings.id r
  /\ prize_winnings.expires_date r' = prize_winnings.expires_date r
  /\ prize_winnings.redemption_code r' = prize_winnings.redemption_code r
  /\ prize_winnings.manual_redemption_required r'
     = prize_winnings.manual_redemption_required r
  /\ prize_winnings.requires_verification r'
     = prize_winnings.requires_verification r
  /\ (prize_winnings.verified r = true -> prize_winnings.verified r' = true).

(** What a lifecycle call does to the [prizes] table: nothing, or one more
    redemption counted for the prize of the row. *)
Definition prizes_step (s s' : prize_winnings.row * PrizeWinning.World) : Prop :=
  PrizeWinning.prizes_tbl s'.2 = PrizeWinning.prizes_tbl s.2
  \/ (prize_winnings.status s.1 = pending
      /\ prize_winnings.status s'.1 <> pending
      /\ exists p,
           PrizeWinning.prizes_tbl s.2 !! prize_winnings.prize_id s.1 = Some p
           /\ PrizeWinning.prizes_tbl s'.2
              = <[prizes.id p := Prize.incrementRedeemed p]>
                  (PrizeWinning.prizes_tbl s.2)).

(** How the [prizes] table [tbl'] after lifecycle calls on the row [r]
    relates to the table [tbl] before: every prize is still there with the
    same awards and stock, and at most one more redemption, counted for the
    prize of the row only and only if the row was pending. *)
Definition redemptions_counted (r : prize_winnings.row)
    (tbl tbl' : gmap string prizes.row) : Prop :=
  forall k p, tbl !! k = Some p ->
    exists p',
      tbl' !! k = Some p'
      /\ prizes.awarded_count p' = prizes.awarded_count p
      /\ prizes.stock_quantity p' = prizes.stock_quantity p
      /\ prizes.redeemed_count p <= prizes.redeemed_count p'
         <= prizes.redeemed_count p + 1
      /\ (k <> prize_winnings.prize_id r -> p' = p)
      /\ (prize_winnings.status r <> pending -> p' = p).

(** A pending won prize that waits for verification. *)
Definition won_unverified : prize_winnings.row :=
  Engine.new_winning "w1" "C" "A" (Some "R") false true.



(** The metadata of a deactivated gate, as text. *)
Definition merge_text (metadata reason : option string) (now : Clock.Date)
  : option string :=
  Some (default "" metadata +:+ ";deactivated:" +:+ default "" reason).

Definition fresh_user : User.row :=
  {| User.login_attempts := 0; User.locked_until := None;
     User.last_login := None |}.

(** A client whose last check-in is stored as the day [d], with a streak
    of [n] days. *)
Definition client_streak (d : option Z) (n : Z) : clients.row :=
  Client.set_streak n n d client_unknown_age.

(** Six hours west of Greenwich, in milliseconds. *)
Definition utc_minus_6 : Z := - (6 * 3600000).

(** The characters the validator of [slug] accepts: [a-z], [0-9] and the
    dash. *)
Definition slug_char (c : ascii) : Prop :=
  ProductCategory.is_lower c = true \/ ProductCategory.is_digit c = true
  \/ c = ProductCategory.dash.

(** No two dashes follow each other. *)
Definition dashes_single (l : list ascii) : Prop :=
  forall i, l !! i = Some ProductCategory.dash ->
            l !! S i <> Some ProductCategory.dash.

(** The characters below 128, on which the byte strings of the model and
    the strings of JavaScript agree. *)
Definition plain_ascii (l : list ascii) : Prop :=
  Forall (fun c => (ProductCategory.code c < 128)%nat) l.

(** The categories gym > pesas > mancuernas, and one that is its own
    parent. *)
Definition category (cid cname : string) (parent : option string)
  : ProductCategory.row :=
  {| ProductCategory.id := cid; ProductCategory.name := cname;
     ProductCategory.slug := None;
     ProductCategory.parent_category_id := parent |}.

Definition categories : gmap string ProductCategory.row :=
  {[ "1" := category "1" "gym" None;
     "2" := category "2" "pesas" (Some "1");
     "3" := category "3" "mancuernas" (Some "2");
     "9" := category "9" "bucle" (Some "9") ]}.


(** * Properties *)

(** ** Scan gate *)

Section ScanGate.
Import Clock QRCode.

Lemma isValid_Allowed now q :
  isValid now q = Allowed ->
  is_active q = true /\ current_uses q < max_uses q.
Proof.
  unfold isValid. destruct (is_active q); simpl; [|discriminate].
  case_bool_decide; [discriminate|]. intros _. split; [done|lia].
Qed.

Lemma isValid_usable now q :
  usable_at now q -> current_uses q < max_uses q -> isValid now q = Allowed.
Proof.
  intros (Ha & Hf & Hu & _) Hlt. unfold isValid. rewrite Ha. simpl.
  rewrite bool_decide_eq_false_2 by lia.
  rewrite bool_decide_eq_false_2 by lia.
  destruct (valid_until q) as [u|] eqn:E; [|done].
  rewrite bool_decide_eq_false_2; [done|]. specialize (Hu u eq_refl). lia.
Qed.

Lemma use_exhausted now c q :
  max_uses q <= current_uses q ->
  exists err, use now c q = (Thrown err, q).
Proof.
  intros H. unfold use, isValid. destruct (is_active q); simpl; [|eauto].
  rewrite bool_decide_eq_true_2 by done. eauto.
Qed.

Lemma use_Thrown now c q err q' :
  use now c q = (Thrown err, q') -> q' = q.
Proof.
  unfold use. destruct (isValid now q); [|congruence].
  destruct (negb (isValidTime now q)); congruence.
Qed.

Lemma use_Returned now c q res q' :
  use now c q = (Returned res, q') ->
  current_uses q < max_uses q
  /\ current_uses q' = current_uses q + 1
  /\ scan_count q' = scan_count q + 1
  /\ max_uses q' = max_uses q
  /\ success res = true
  /\ uses_remaining res = max_uses q - (current_uses q + 1)
  /\ res_prize_category res = prize_category q
  /\ is_used q' = (if bool_decide (max_uses q <= current_uses q + 1)
                   then true else is_used q).
Proof.
  unfold use. destruct (isValid now q) eqn:Hv; [|congruence].
  apply isValid_Allowed in Hv as [_ Hlt].
  destruct (negb (isValidTime now q)); [congruence|].
  intros [= <- <-]. simpl. done.
Qed.

Lemma use_usable now c q :
  usable_at now q -> current_uses q < max_uses q ->
  exists res q', use now c q = (Returned res, q').
Proof.
  intros Hu Hlt. unfold use. rewrite (isValid_usable _ _ Hu Hlt).
  destruct Hu as (_ & _ & _ & ->). simpl. eauto.
Qed.

Lemma use_keeps_usable now c q t :
  usable_at t q -> usable_at t (snd (use now c q)).
Proof.
  intros Hu. destruct (use now c q) as [[res|err] q'] eqn:E; simpl.
  - revert E. unfold use. destruct (isValid now q); [|congruence].
    destruct (negb (isValidTime now q)); [congruence|].
    intros [= <- <-]. exact Hu.
  - by rewrite (use_Thrown _ _ _ _ _ E).
Qed.

Lemma use_bounded now c q :
  current_uses q <= max_uses q ->
  current_uses (snd (use now c q)) <= max_uses (snd (use now c q)).
Proof.
  intros H. destruct (use now c q) as [[res|err] q'] eqn:E; simpl.
  - apply use_Returned in E. lia.
  - by rewrite (use_Thrown _ _ _ _ _ E).
Qed.

Lemma use_all_bounded calls : forall q,
  current_uses q <= max_uses q ->
  current_uses (use_all calls q) <= max_uses (use_all calls q).
Proof.
  induction calls as [|[now c] rest IH]; intros q H; simpl; [done|].
  apply IH, use_bounded, H.
Qed.

End ScanGate.

(** C5.  For every scan gate, [current_uses] never exceeds [max_uses]
    whatever use attempts are made.  A use that succeeds adds one to
    [current_uses] and to the total scan counter and returns the remaining
    uses and the prize category; when it brings [current_uses] to
    [max_uses] the gate is marked used.  A gate whose [current_uses] equals
    [max_uses] rejects every attempt and is left unchanged, while an
    otherwise usable gate with uses left accepts.  With [max_uses = 3],
    three uses succeed (leaving 2, 1 and 0), the gate is marked used after
    the third, and the fourth is rejected. *)
Theorem C5_scan_gate_never_overused (q : QRCode.t) :
  QRCode.current_uses q <= QRCode.max_uses q ->
  (forall calls,
      QRCode.current_uses (QRCode.use_all calls q)
      <= QRCode.max_uses (QRCode.use_all calls q))
  /\ (forall now c,
        match QRCode.use now c q with
        | (Returned res, q') =>
            QRCode.current_uses q' = QRCode.current_uses q + 1
            /\ QRCode.scan_count q' = QRCode.scan_count q + 1
            /\ QRCode.uses_remaining res
               = QRCode.max_uses q' - QRCode.current_uses q'
            /\ QRCode.res_prize_category res = QRCode.prize_category q
            /\ (QRCode.current_uses q' = QRCode.max_uses q' ->
                QRCode.is_used q' = true)
        | (Thrown _, q') => q' = q
        end)
  /\ (QRCode.current_uses q = QRCode.max_uses q ->
      forall now c, exists err, QRCode.use now c q = (Thrown err, q))
  /\ (forall now c,
        usable_at now q -> QRCode.current_uses q < QRCode.max_uses q ->
        is_returned (fst (QRCode.use now c q)) = true)
  /\ (QRCode.max_uses q = 3 -> QRCode.current_uses q = 0 ->
      forall t1 t2 t3 t4 c1 c2 c3 c4,
        usable_at t1 q -> usable_at t2 q -> usable_at t3 q -> usable_at t4 q ->
        let q1 := snd (QRCode.use t1 c1 q) in
        let q2 := snd (QRCode.use t2 c2 q1) in
        let q3 := snd (QRCode.use t3 c3 q2) in
        remaining_of (fst (QRCode.use t1 c1 q)) = Some 2
        /\ remaining_of (fst (QRCode.use t2 c2 q1)) = Some 1
        /\ remaining_of (fst (QRCode.use t3 c3 q2)) = Some 0
        /\ QRCode.is_used q3 = true
        /\ QRCode.current_uses q3 = 3
        /\ exists err, QRCode.use t4 c4 q3 = (Thrown err, q3)).
Proof.
  intros Hinv. split; [|split; [|split; [|split]]].
  - intros calls. by apply use_all_bounded.
  - intros now c. destruct (QRCode.use now c q) as [[res|err] q'] eqn:E.
    + apply use_Returned in E as (Hlt & Hcu & Hsc & Hmax & _ & Hrem & Hcat & Hused).
      repeat split; try done; try lia.
      intros Heq. rewrite Hused. rewrite bool_decide_eq_true_2; [done|lia].
    + by apply use_Thrown in E.
  - intros Heq now c. apply use_exhausted. lia.
  - intros now c Hu Hlt.
    destruct (use_usable now c q Hu Hlt) as (res & q' & ->). done.
  - intros Hmax Hcur t1 t2 t3 t4 c1 c2 c3 c4 U1 U2 U3 U4 q1 q2 q3.
    destruct (use_usable t1 c1 q U1 ltac:(lia)) as (r1 & q1' & E1).
    assert (q1 = q1') as Hq1 by (unfold q1; by rewrite E1).
    pose proof (use_keeps_usable t1 c1 q t2 U2) as U2'.
    pose proof (use_keeps_usable t1 c1 q t3 U3) as U3'.
    pose proof (use_keeps_usable t1 c1 q t4 U4) as U4'.
    fold q1 in U2', U3', U4'.
    pose proof (use_Returned _ _ _ _ _ E1) as (_ & C1 & _ & M1 & _ & R1 & _ & _).
    rewrite <- Hq1 in C1, M1.
    destruct (use_usable t2 c2 q1 U2' ltac:(lia)) as (r2 & q2' & E2).
    assert (q2 = q2') as Hq2 by (unfold q2; by rewrite E2).
    pose proof (use_keeps_usable t2 c2 q1 t3 U3') as U3''.
    pose proof (use_keeps_usable t2 c2 q1 t4 U4') as U4''.
    fold q2 in U3'', U4''.
    pose proof (use_Returned _ _ _ _ _ E2) as (_ & C2 & _ & M2 & _ & R2 & _ & _).
    rewrite <- Hq2 in C2, M2.
    destruct (use_usable t3 c3 q2 U3'' ltac:(lia)) as (r3 & q3' & E3).
    assert (q3 = q3') as Hq3 by (unfold q3; by rewrite E3).
    pose proof (use_Returned _ _ _ _ _ E3) as (_ & C3 & _ & M3 & _ & R3 & _ & I3).
    rewrite <- Hq3 in C3, M3, I3.
    rewrite E1, E2, E3. simpl.
    repeat split.
    + f_equal. lia.
    + f_equal. lia.
    + f_equal. lia.
    + rewrite I3. rewrite bool_decide_eq_true_2; [done|lia].
    + lia.
    + apply use_exhausted. lia.
Qed.

Lemma C5_witness :
  QRCode.current_uses gate3 <= QRCode.max_uses gate3
  /\ QRCode.current_uses (QRCode.use_all [(10, "ana"); (20, "bo"); (30, "cy"); (40, "di")] gate3)
     <= QRCode.max_uses (QRCode.use_all [(10, "ana"); (20, "bo"); (30, "cy"); (40, "di")] gate3).
Proof.
  assert (QRCode.current_uses gate3 <= QRCode.max_uses gate3) as H
    by (vm_compute; discriminate).
  split; [exact H|].
  exact (proj1 (C5_scan_gate_never_overused gate3 H) _).
Defined.

(** ** Won-prize lifecycle *)

Section Lifecycle.
Import Clock prize_winnings PrizeWinning.

Lemma dispatches_app l1 l2 : dispatches (l1 ++ l2) = (dispatches l1 + dispatches l2)%nat.
Proof. unfold dispatches. by rewrite filter_app, length_app. Qed.

Lemma effects_app l1 l2 : effects (l1 ++ l2) = (effects l1 + effects l2)%nat.
Proof. unfold effects. by rewrite filter_app, length_app. Qed.

Lemma side_effects_emit evs w :
  side_effects (emit evs w) = (side_effects w + dispatches evs)%nat.
Proof. unfold side_effects, emit. simpl. apply dispatches_app. Qed.

Lemma collaborator_calls_emit evs w :
  collaborator_calls (emit evs w) = (collaborator_calls w + effects evs)%nat.
Proof. unfold collaborator_calls, emit. simpl. apply effects_app. Qed.

Lemma status_save now prev r : status (save now prev r) = status r.
Proof. reflexivity. Qed.

(** [sendNotification] keeps the status and the prizes and only adds a
    notification to the trace. *)
Lemma sendNotification_spec e ty r w :
  status (sendNotification e ty (r, w)).1 = status r
  /\ side_effects (sendNotification e ty (r, w)).2 = side_effects w
  /\ collaborator_calls (sendNotification e ty (r, w)).2 = collaborator_calls w
  /\ prizes_tbl (sendNotification e ty (r, w)).2 = prizes_tbl w
  /\ prize_id (sendNotification e ty (r, w)).1 = prize_id r
  /\ client_id (sendNotification e ty (r, w)).1 = client_id r
  /\ roulette_id (sendNotification e ty (r, w)).1 = roulette_id r
  /\ created_at (sendNotification e ty (r, w)).1 = created_at r.
Proof.
  unfold sendNotification. destruct (negb (has_Notification (models e))); simpl.
  - done.
  - rewrite side_effects_emit, collaborator_calls_emit.
    unfold dispatches, effects. simpl. repeat split; lia.
Qed.

(** What [Prize.applyToClient] emits. *)
Lemma applyToClient_events m d c p res evs :
  Prize.applyToClient m d c p = (res, evs) ->
  (res = Returned Allowed /\ dispatches evs = 1%nat /\ (effects evs <= 1)%nat)
  \/ (res <> Returned Allowed /\ evs = []).
Proof.
  unfold Prize.applyToClient.
  destruct (negb (prizes.auto_apply p)); [intros [= <- <-]; right; done|].
  destruct (negb (has_Client m)); [intros [= <- <-]; right; done|].
  destruct (negb (client_exists d c)); [intros [= <- <-]; right; done|].
  intros [= <- <-]. left. split; [done|].
  unfold Prize.applyMembershipDays, Prize.applyFreeProduct.
  destruct (prizes.type p); simpl;
    repeat match goal with
           | |- context [if ?b then _ else _] => destruct b
           | |- context [match ?o with Some _ => _ | None => _ end] => destruct o
           end; vm_compute; split; (done || lia).
Qed.


Lemma canBeApplied_Allowed now r :
  canBeApplied now r = Allowed ->
  status r = pending /\ isExpired now r = false
  /\ (requires_verification r = true -> verified r = true).
Proof.
  unfold canBeApplied. case_bool_decide as Hs; [discriminate|].
  destruct (isExpired now r); [discriminate|].
  destruct (requires_verification r), (verified r); simpl; try discriminate;
    intros _; repeat split; try done; by destruct (decide (status r = pending)).
Qed.


Lemma same_keys_refl r : same_keys r r.
Proof. by repeat split. Qed.

Lemma same_keys_trans r1 r2 r3 :
  same_keys r1 r2 -> same_keys r2 r3 -> same_keys r1 r3.
Proof.
  intros (A1 & A2 & A3 & A4) (B1 & B2 & B3 & B4).
  repeat split; congruence.
Qed.

Lemma same_keys_sendNotification e ty r w :
  same_keys r (sendNotification e ty (r, w)).1.
Proof.
  destruct (sendNotification_spec e ty r w) as (_ & _ & _ & _ & ? & ? & ? & ?).
  by repeat split.
Qed.

Lemma apply_step e u r w :
  same_keys r (apply e u (r, w)).2.1
  /\ lifecycle_step (r, w) (apply e u (r, w)).2
  /\ (status (apply e u (r, w)).2.1 = applied -> status r <> applied ->
      (apply e u (r, w)).1 = Returned Allowed).
Proof.
  unfold apply.
  destruct (canBeApplied (now e) r) eqn:Hc;
    [|split; [apply same_keys_refl|split; [left; done|simpl; congruence]]].
  apply canBeApplied_Allowed in Hc as (Hp & _ & _).
  destruct (has_Prize (models e));
    [|split; [apply same_keys_refl|split; [left; done|simpl; congruence]]].
  destruct (prizes_tbl w !! prize_id r) as [prize|];
    [|split; [apply same_keys_refl|split; [left; done|simpl; congruence]]].
  destruct (Prize.applyToClient (models e) (dir e) (client_id r) prize)
    as [res evs] eqn:Ha.
  apply applyToClient_events in Ha as [(-> & Hd & He)|(Hne & ->)].
  - cbv beta iota zeta delta [is_allowed].
    set (r1 := save (now e) r (set_applied (now e) u r)).
    set (w2 := put_prize (Prize.incrementRedeemed prize) (emit evs w)).
    assert (side_effects w2 = S (side_effects w)) as Hse.
    { unfold w2, put_prize, side_effects. simpl.
      change (dispatches (trace w ++ evs) = S (dispatches (trace w))).
      rewrite dispatches_app. lia. }
    assert ((collaborator_calls w2 <= S (collaborator_calls w))%nat) as Hcc.
    { unfold w2, put_prize, collaborator_calls. simpl.
      rewrite effects_app. lia. }
    destruct (negb (notification_sent r1)) eqn:Hn.
    + destruct (sendNotification_spec e "won" r1 w2) as (Hs & Hs1 & Hs2 & _).
      split; [|split].
      * eapply same_keys_trans; [|apply same_keys_sendNotification].
        by repeat split.
      * right; left. cbn [fst snd]. rewrite Hs, Hs1, Hs2. done.
      * done.
    + split; [by repeat split|]. split; [|done].
      right; left. simpl. done.
  - assert (side_effects (emit [] w) = side_effects w
            /\ collaborator_calls (emit [] w) = collaborator_calls w) as [H1 H2].
    { rewrite side_effects_emit, collaborator_calls_emit.
      unfold dispatches, effects. simpl. lia. }
    destruct res as [[|reason]|[]]; cbv beta iota zeta delta [is_allowed].
    + done.
    + split; [apply same_keys_refl|]. split; [|cbn [fst snd]; congruence].
      left. cbn [fst snd]. done.
    + split; [apply same_keys_refl|]. split; [|cbn [fst snd]; congruence].
      left. cbn [fst snd]. done.
Qed.

Lemma redeem_step e u n r w :
  same_keys r (redeem e u n (r, w)).2.1
  /\ lifecycle_step (r, w) (redeem e u n (r, w)).2.
Proof.
  unfold redeem. case_bool_decide as Hs;
    [split; [apply same_keys_refl|left; done]|].
  destruct (isExpired (now e) r); [split; [apply same_keys_refl|left; done]|].
  assert (status r = pending) as Hp by (by destruct (decide (status r = pending))).
  set (r1 := save (now e) r (set_redeemed (now e) u n r)).
  match goal with |- context [sendNotification e "redeemed" (r1, ?w0)] =>
    set (w1 := w0) end.
  assert (side_effects w1 = side_effects w
          /\ collaborator_calls w1 = collaborator_calls w) as [H1 H2].
  { unfold w1. destruct (has_Prize (models e)); [|done].
    destruct (prizes_tbl w !! prize_id r1); done. }
  destruct (sendNotification_spec e "redeemed" r1 w1) as (Hs1 & Hs2 & Hs3 & _).
  split.
  - eapply same_keys_trans; [|apply same_keys_sendNotification].
    by repeat split.
  - right; right; left. cbn [fst snd]. rewrite Hs1, Hs2, Hs3, H1, H2. done.
Qed.

Lemma cancel_step e u why r w :
  same_keys r (cancel e u why (r, w)).2.1
  /\ lifecycle_step (r, w) (cancel e u why (r, w)).2.
Proof.
  unfold cancel. case_bool_decide as Hs;
    [split; [apply same_keys_refl|left; done]|].
  set (r1 := save (now e) r (set_cancelled (now e) u why r)).
  destruct (sendNotification_spec e "cancelled" r1 w) as (Hs1 & Hs2 & Hs3 & _).
  split.
  - eapply same_keys_trans; [|apply same_keys_sendNotification].
    by repeat split.
  - right; right; right. cbn [fst snd]. rewrite Hs1, Hs2, Hs3.
    repeat split; try done; intros ?; apply Hs; auto.
Qed.

Lemma verify_step e u r w :
  same_keys r (verify e u (r, w)).2.1
  /\ lifecycle_step (r, w) (verify e u (r, w)).2.
Proof.
  unfold verify.
  set (r1 := save (now e) r (set_verified (now e) u r)).
  assert (same_keys r r1) as Hk by (by repeat split).
  assert (status r1 = status r) as Hst by done.
  match goal with |- context [if ?b then _ else _] => destruct b end.
  - destruct (apply_step e u r1 w) as (Hk' & Hl & _).
    destruct (apply e u (r1, w)) as [[res|err] s']; simpl in *.
    + split; [by eapply same_keys_trans|exact Hl].
    + split; [by eapply same_keys_trans|exact Hl].
  - simpl. split; [done|]. left. done.
Qed.

Lemma step_spec e c s :
  same_keys s.1 (step e c s).1 /\ lifecycle_step s (step e c s).
Proof.
  destruct s as [r w]. destruct c; simpl.
  - destruct (apply_step e user r w) as (? & ? & _). done.
  - apply redeem_step.
  - apply verify_step.
  - apply cancel_step.
Qed.

Lemma step_not_pending e c s :
  status s.1 <> pending ->
  status (step e c s).1 <> pending
  /\ side_effects (step e c s).2 = side_effects s.2
  /\ collaborator_calls (step e c s).2 = collaborator_calls s.2
  /\ (status s.1 = applied \/ status s.1 = redeemed ->
      status (step e c s).1 = status s.1).
Proof.
  intros Hnp. destruct (step_spec e c s) as [_ Hl].
  destruct Hl as [(Hst & H1 & H2)|[(Hp & _)|[(Hp & _)|(Ha & Hr & Hst & H1 & H2)]]];
    try done.
  - rewrite Hst. done.
  - rewrite Hst. repeat split; try done. intros [?|?]; done.
Qed.




End Lifecycle.


Section Cancel.
Import Clock prize_winnings PrizeWinning.

(** A [cancel] that passes its guard returns and stamps the row. *)
Lemma cancel_passes e u why r w :
  status r <> applied -> status r <> redeemed ->
  let res := cancel e u why (r, w) in
  res.1 = Returned tt
  /\ status res.2.1 = cancelled
  /\ cancelled_date res.2.1 = Some (now e)
  /\ cancelled_reason res.2.1 = why
  /\ cancelled_by_user_id res.2.1 = u.
Proof.
  intros Ha Hr. unfold cancel.
  rewrite bool_decide_eq_false_2 by (intros [?|?]; done).
  unfold sendNotification.
  destruct (negb (has_Notification (models e))); cbn [fst snd].
  - unfold save, beforeUpdate, set_cancelled; cbn.
    repeat split; try done. by destruct (bool_decide _).
  - unfold save, beforeUpdate, set_notified, set_cancelled; cbn.
    repeat split; try done.
    repeat (match goal with
            | |- context [bool_decide ?P] => destruct (bool_decide P)
            end; cbn); done.
Qed.

Lemma cancel_blocked e u why r w :
  status r = applied \/ status r = redeemed ->
  cancel e u why (r, w)
  = (Thrown No_se_puede_cancelar_un_premio_ya_aplicado_o_canjeado, (r, w)).
Proof. intros H. unfold cancel. by rewrite bool_decide_eq_true_2. Qed.

End Cancel.

(** C6, as stated, fails: a second [cancel] on the row that the first one
    cancelled returns normally instead of throwing. *)
Lemma C6_counterexample :
  let first := PrizeWinning.cancel (env_at 1000) (Some "staff") (Some "error")
                 (won "w1" "C" pending 500, world_A) in
  let second := PrizeWinning.cancel (env_at 2000) (Some "staff") (Some "otra vez")
                  first.2 in
  first.1 = Returned tt
  /\ prize_winnings.status first.2.1 = cancelled
  /\ second.1 = Returned tt
  /\ prize_winnings.cancelled_date second.2.1 = Some 2000.
Proof. vm_compute. done. Qed.

(** C6, amended.  [cancel] succeeds on a [pending] row and sets its status
    to [cancelled] with the cancellation time, user and reason; on an
    [applied] or [redeemed] row it throws and changes nothing; on a row that
    is already [cancelled] (or [expired]) it succeeds again, leaves the
    status [cancelled] and overwrites the cancellation time, user and
    reason. *)
Theorem C6_cancel_guard (e : PrizeWinning.Env) (u why : option string)
    (r : prize_winnings.row) (w : PrizeWinning.World) :
  let res := PrizeWinning.cancel e u why (r, w) in
  (prize_winnings.status r = pending
   \/ prize_winnings.status r = cancelled
   \/ prize_winnings.status r = expired ->
   res.1 = Returned tt
   /\ prize_winnings.status res.2.1 = cancelled
   /\ prize_winnings.cancelled_date res.2.1 = Some (PrizeWinning.now e)
   /\ prize_winnings.cancelled_reason res.2.1 = why
   /\ prize_winnings.cancelled_by_user_id res.2.1 = u)
  /\ (prize_winnings.status r = applied \/ prize_winnings.status r = redeemed ->
      res = (Thrown PrizeWinning.No_se_puede_cancelar_un_premio_ya_aplicado_o_canjeado,
             (r, w))).
Proof.
  split.
  - intros H. apply cancel_passes; destruct H as [H|[H|H]]; rewrite H; done.
  - apply cancel_blocked.
Qed.

Section Transitions.
Import Clock prize_winnings PrizeWinning.

(** [sendNotification] writes the two notification columns only. *)
Lemma sendNotification_columns e ty r w :
  let r' := (sendNotification e ty (r, w)).1 in
  applied_date r' = applied_date r
  /\ redeemed_date r' = redeemed_date r
  /\ cancelled_date r' = cancelled_date r
  /\ cancelled_reason r' = cancelled_reason r
  /\ metadata r' = metadata r.
Proof.
  unfold sendNotification.
  destruct (negb (has_Notification (models e))); cbn [fst snd]; [done|].
  unfold save, beforeUpdate, set_notified. cbn.
  rewrite (bool_decide_eq_false_2 (status r <> status r)) by (intros H; by apply H).
  done.
Qed.

(** The [beforeUpdate] hook never writes the status; when the status has
    changed it fills the date of the new status if that date is empty. *)
Lemma beforeUpdate_stamps now prev r :
  let r' := beforeUpdate now prev r in
  status r' = status r
  /\ metadata r' = metadata r
  /\ (status prev <> status r ->
      (status r = applied -> applied_date r' = or_else (applied_date r) now)
      /\ (status r = redeemed -> redeemed_date r' = or_else (redeemed_date r) now)
      /\ (status r = cancelled -> cancelled_date r' = or_else (cancelled_date r) now)).
Proof.
  cbn. split; [done|]. split; [done|]. intros Hch.
  rewrite (bool_decide_eq_true_2 _ Hch). cbn.
  repeat split; intros ->; by rewrite bool_decide_eq_true_2.
Qed.

Lemma apply_columns e u r w :
  let r' := (apply e u (r, w)).2.1 in
  status r' <> status r ->
  status r' = applied /\ applied_date r' = Some (now e)
  /\ metadata r' = metadata r.
Proof.
  cbn zeta. unfold apply.
  destruct (canBeApplied (now e) r); [|done].
  destruct (has_Prize (models e)); [|done].
  destruct (prizes_tbl w !! prize_id r) as [prize|]; [|done].
  destruct (Prize.applyToClient (models e) (dir e) (client_id r) prize)
    as [[res|[]] evs]; [|done].
  destruct res; cbv beta iota zeta delta [is_allowed]; [|done].
  set (r1 := save (now e) r (set_applied (now e) u r)).
  assert (status r1 = applied /\ applied_date r1 = Some (now e)
          /\ metadata r1 = metadata r) as (H1 & H2 & H3).
  { unfold r1, save, beforeUpdate, set_applied. cbn.
    repeat split. by destruct (_ && _). }
  intros _.
  destruct (negb (notification_sent r1)); cbn [fst snd]; [|done].
  match goal with |- context [sendNotification e ?ty (r1, ?w0)] =>
    pose proof (sendNotification_columns e ty r1 w0) as (C1 & _ & _ & _ & C5);
    pose proof (sendNotification_spec e ty r1 w0) as (S1 & _)
  end.
  rewrite S1, C1, C5. done.
Qed.

Lemma redeem_columns e u n r w :
  let r' := (redeem e u n (r, w)).2.1 in
  status r' <> status r ->
  status r' = redeemed /\ redeemed_date r' = Some (now e)
  /\ metadata r' = metadata r.
Proof.
  cbn zeta. unfold redeem.
  destruct (bool_decide (status r <> pending)); [done|].
  destruct (isExpired (now e) r); [done|].
  set (r1 := save (now e) r (set_redeemed (now e) u n r)).
  assert (status r1 = redeemed /\ redeemed_date r1 = Some (now e)
          /\ metadata r1 = metadata r) as (H1 & H2 & H3).
  { unfold r1, save, beforeUpdate, set_redeemed. cbn.
    repeat split. by destruct (_ && _). }
  intros _.
  match goal with |- context [sendNotification e ?ty (r1, ?w0)] =>
    pose proof (sendNotification_columns e ty r1 w0) as (_ & C2 & _ & _ & C5);
    pose proof (sendNotification_spec e ty r1 w0) as (S1 & _)
  end.
  cbn [fst snd]. rewrite S1, C2, C5. done.
Qed.

Lemma cancel_columns e u why r w :
  let r' := (cancel e u why (r, w)).2.1 in
  status r' <> status r ->
  status r' = cancelled /\ cancelled_date r' = Some (now e)
  /\ cancelled_reason r' = why /\ metadata r' = metadata r.
Proof.
  cbn zeta. unfold cancel.
  destruct (bool_decide (status r = applied \/ status r = redeemed)); [done|].
  set (r1 := save (now e) r (set_cancelled (now e) u why r)).
  assert (status r1 = cancelled /\ cancelled_date r1 = Some (now e)
          /\ cancelled_reason r1 = why
          /\ metadata r1 = metadata r) as (H1 & H2 & H3 & H4).
  { unfold r1, save, beforeUpdate, set_cancelled. cbn.
    repeat split. by destruct (_ && _). }
  intros _.
  match goal with |- context [sendNotification e ?ty (r1, ?w0)] =>
    pose proof (sendNotification_columns e ty r1 w0) as (_ & _ & C3 & C4 & C5);
    pose proof (sendNotification_spec e ty r1 w0) as (S1 & _)
  end.
  cbn [fst snd]. rewrite S1, C3, C4, C5. done.
Qed.

Lemma verify_columns e u r w :
  let r' := (verify e u (r, w)).2.1 in
  status r' <> status r ->
  status r' = applied /\ applied_date r' = Some (now e)
  /\ metadata r' = metadata r.
Proof.
  cbn zeta. unfold verify.
  set (r1 := save (now e) r (set_verified (now e) u r)).
  match goal with |- context [if ?b then _ else _] => destruct b end;
    [|cbn [fst snd]; intros H; by destruct H].
  pose proof (apply_columns e u r1 w) as Ha. cbn zeta in Ha.
  destruct (apply e u (r1, w)) as [[res|err] s']; cbn [fst snd] in *;
    intros H; apply Ha, H.
Qed.

End Transitions.

(** C9, as stated, fails: no history trail can be read off the stored
    state.  Cancelling a [pending] row and cancelling an [expired] row
    leave the same row, the same prizes and the same trace of calls, so
    nothing stored records the previous status. *)
Lemma C9_counterexample : ~ exists trail, keeps_history trail.
Proof.
  intros [trail H].
  pose (e := env_at 1000).
  pose (c := PrizeWinning.Call_cancel (Some "staff") (Some "error")).
  pose (s1 := (won "w1" "C" pending 500, world_A)).
  pose (s2 := (won "w1" "C" expired 500, world_A)).
  assert (PrizeWinning.step e c s1 = PrizeWinning.step e c s2) as Heq
    by (vm_compute; reflexivity).
  destruct (H e c s1) as [x1 E1]; [vm_compute; discriminate|].
  destruct (H e c s2) as [x2 E2]; [vm_compute; discriminate|].
  rewrite <- Heq, E1 in E2.
  apply (f_equal (fun l => h_previous <$> last l)) in E2.
  rewrite !last_snoc in E2. vm_compute in E2. discriminate.
Qed.

(** C9, amended.  Every change of status made by [apply], [verify],
    [redeem] or [cancel] overwrites the status in place and stamps the date
    column of the new status with the time of the call: [applied_date],
    [redeemed_date], or [cancelled_date] together with [cancelled_reason];
    the [metadata] column is left as it was.  The previous status is not
    recorded and no call moves a row to [expired] or back to [pending]. *)
Theorem C9_transitions_stamp_in_place (e : PrizeWinning.Env)
    (c : PrizeWinning.Call) (s : prize_winnings.row * PrizeWinning.World) :
  let r := s.1 in
  let r' := (PrizeWinning.step e c s).1 in
  prize_winnings.status r' <> prize_winnings.status r ->
  prize_winnings.metadata r' = prize_winnings.metadata r
  /\ match prize_winnings.status r' with
     | applied =>
         prize_winnings.applied_date r' = Some (PrizeWinning.now e)
     | redeemed =>
         prize_winnings.redeemed_date r' = Some (PrizeWinning.now e)
     | cancelled =>
         prize_winnings.cancelled_date r' = Some (PrizeWinning.now e)
         /\ exists u why, c = PrizeWinning.Call_cancel u why
                          /\ prize_winnings.cancelled_reason r' = why
     | pending | expired => False
     end.
Proof.
  destruct s as [r w]. cbn zeta. cbn [fst]. destruct c; cbn [PrizeWinning.step].
  - intros H. destruct (apply_columns e user r w H) as (-> & ? & ?). done.
  - intros H. destruct (redeem_columns e user notes r w H) as (-> & ? & ?). done.
  - intros H. destruct (verify_columns e user r w H) as (-> & ? & ?). done.
  - intros H. destruct (cancel_columns e user reason r w H) as (-> & ? & ? & ?).
    split; [done|]. split; [done|]. eauto.
Qed.

Lemma C9_witness :
  let e := env_at 1000 in
  let c := PrizeWinning.Call_redeem (Some "staff") None in
  let s := (won "w1" "C" pending 500, world_A) in
  prize_winnings.status (PrizeWinning.step e c s).1 = redeemed
  /\ prize_winnings.redeemed_date (PrizeWinning.step e c s).1 = Some 1000.
Proof.
  intros e c s.
  assert (prize_winnings.status (PrizeWinning.step e c s).1
          <> prize_winnings.status s.1) as H by (vm_compute; discriminate).
  pose proof (C9_transitions_stamp_in_place e c s H) as [_ Hm].
  split; [vm_compute; reflexivity|]. exact Hm.
Defined.

(** ** Redemption codes *)

Section RedemptionCode.
Import prize_winnings PrizeWinning.

Lemma get_elem_of s : forall n c,
  String.get n s = Some c -> c ∈ String.list_ascii_of_string s.
Proof.
  induction s as [|a s IH]; intros n c; simpl; [discriminate|].
  destruct n as [|n]; [intros [= ->]; left|intros H; right; eauto].
Qed.

Lemma get_in_range s : forall n,
  (n < String.length s)%nat -> exists c, String.get n s = Some c.
Proof.
  induction s as [|a s IH]; intros n; simpl; [lia|].
  destruct n as [|n]; [eauto|]. intros H. apply IH. lia.
Qed.

Lemma length_snoc s1 : forall c,
  String.length (s1 +:+ String c EmptyString) = S (String.length s1).
Proof. induction s1 as [|a s1 IH]; intros c; simpl; [done|]. by rewrite IH. Qed.

Lemma list_ascii_snoc s1 : forall c,
  String.list_ascii_of_string (s1 +:+ String c EmptyString)
  = String.list_ascii_of_string s1 ++ [c].
Proof. induction s1 as [|a s1 IH]; intros c; simpl; [done|]. by rewrite IH. Qed.

(** [Math.floor(Math.random() * 32)] is an index of [chars]. *)
Lemma index_in_range (x : Q) :
  (0 <= x)%Q -> (x < 1)%Q ->
  0 <= Qfloor (x * inject_Z (Z.of_nat (String.length chars))) < 32.
Proof.
  intros H0 H1. change (inject_Z (Z.of_nat (String.length chars))) with (32 # 1)%Q.
  split.
  - change 0 with (Qfloor 0). apply Qfloor_resp_le.
    apply Qmult_le_0_compat; [done|discriminate].
  - assert (x * (32 # 1) < 32 # 1)%Q as Hlt.
    { destruct x as [n d]. unfold Qlt in *. simpl in *. lia. }
    pose proof (Qfloor_le (x * (32 # 1))) as Hfl.
    assert (inject_Z (Qfloor (x * (32 # 1))) < inject_Z 32)%Q as Hz
      by (eapply Qle_lt_trans; [exact Hfl|exact Hlt]).
    by rewrite <- Zlt_Qlt in Hz.
Qed.

Lemma charAt_in_range i :
  0 <= i < 32 ->
  exists c, charAt chars i = String c EmptyString /\ c ∈ alphabet.
Proof.
  intros Hi. unfold charAt. rewrite bool_decide_eq_false_2 by lia.
  destruct (get_in_range chars (Z.to_nat i)) as [c Hc].
  { change (String.length chars) with 32%nat. lia. }
  rewrite Hc. exists c. split; [done|]. by eapply get_elem_of.
Qed.

Lemma randomChars_ok rng : unit_interval rng -> forall n pos code,
  String.length (randomChars rng pos n code) = (String.length code + n)%nat
  /\ (Forall (fun c => c ∈ alphabet) (String.list_ascii_of_string code) ->
      Forall (fun c => c ∈ alphabet)
        (String.list_ascii_of_string (randomChars rng pos n code))).
Proof.
  intros Hu. induction n as [|n IH]; intros pos code; cbn [randomChars].
  - split; [lia|done].
  - destruct (Hu pos) as [H0 H1].
    destruct (charAt_in_range _ (index_in_range _ H0 H1)) as (c & -> & Hc).
    destruct (IH (S pos) (code +:+ String c EmptyString)) as [Hl Hf].
    rewrite Hl, length_snoc. split; [lia|].
    intros Hcode. apply Hf. rewrite list_ascii_snoc.
    apply Forall_app. split; [done|]. by apply Forall_singleton.
Qed.

Lemma randomCode_ok rng pos :
  unit_interval rng -> well_formed_code (randomCode rng pos).
Proof.
  intros Hu. destruct (randomChars_ok rng Hu 8 pos EmptyString) as [Hl Hf].
  split; [exact Hl|]. apply Hf. constructor.
Qed.

(** Equality of the loop's result triples, component by component. *)
Ltac tuple_eq :=
  repeat (apply pair_equal_spec; split);
  try reflexivity; try lia; try (f_equal; lia).

Lemma collides_shift rng stored pos j :
  collides rng stored (pos + 8) j <-> collides rng stored pos (S j).
Proof.
  unfold collides.
  by replace (pos + 8 + 8 * j)%nat with (pos + 8 * S j)%nat by lia.
Qed.

(** The loop stops at the first code that is not stored. *)
Lemma do_while_first_free rng stored : forall k budget pos attempts,
  (forall j, (j < k)%nat -> collides rng stored pos j) ->
  ~ collides rng stored pos k ->
  (k <= budget)%nat ->
  attempts + Z.of_nat k < maxAttempts ->
  do_while rng stored budget pos attempts
  = (randomCode rng (pos + 8 * k), attempts + Z.of_nat k, (pos + 8 * S k)%nat).
Proof.
  induction k as [|k IH]; intros budget pos attempts Hall Hfree Hb Ha.
  - unfold collides in Hfree. rewrite Nat.mul_0_r, Nat.add_0_r in Hfree.
    apply not_true_is_false in Hfree.
    destruct budget; cbn [do_while]; rewrite Hfree; cbn [negb];
      rewrite Nat.mul_0_r, Nat.add_0_r; tuple_eq.
  - assert (existing stored (randomCode rng pos) = true) as Hc.
    { specialize (Hall 0%nat ltac:(lia)). unfold collides in Hall.
      by rewrite Nat.mul_0_r, Nat.add_0_r in Hall. }
    destruct budget as [|b]; [lia|]. cbn [do_while]. rewrite Hc. cbn [negb].
    rewrite bool_decide_eq_true_2 by lia.
    rewrite (IH b (pos + 8)%nat (attempts + 1)).
    + tuple_eq.
    + intros j Hj. apply collides_shift, Hall. lia.
    + intros H. apply Hfree. by apply collides_shift.
    + lia.
    + lia.
Qed.

(** When every code is stored the loop stops at [maxAttempts]. *)
Lemma do_while_all_taken rng stored : forall n budget pos attempts,
  (forall j, (j < S n)%nat -> collides rng stored pos j) ->
  (n <= budget)%nat ->
  attempts + Z.of_nat (S n) = maxAttempts ->
  do_while rng stored budget pos attempts
  = (randomCode rng (pos + 8 * n), maxAttempts, (pos + 8 * S n)%nat).
Proof.
  induction n as [|n IH]; intros budget pos attempts Hall Hb Ha.
  - assert (existing stored (randomCode rng pos) = true) as Hc.
    { specialize (Hall 0%nat ltac:(lia)). unfold collides in Hall.
      by rewrite Nat.mul_0_r, Nat.add_0_r in Hall. }
    destruct budget; cbn [do_while]; rewrite Hc; cbn [negb].
    + rewrite Nat.mul_0_r, Nat.add_0_r. tuple_eq.
    + rewrite bool_decide_eq_false_2 by lia.
      rewrite Nat.mul_0_r, Nat.add_0_r. tuple_eq.
  - assert (existing stored (randomCode rng pos) = true) as Hc.
    { specialize (Hall 0%nat ltac:(lia)). unfold collides in Hall.
      by rewrite Nat.mul_0_r, Nat.add_0_r in Hall. }
    destruct budget as [|b]; [lia|]. cbn [do_while]. rewrite Hc. cbn [negb].
    rewrite bool_decide_eq_true_2 by lia.
    rewrite (IH b (pos + 8)%nat (attempts + 1)).
    + tuple_eq.
    + intros j Hj. apply collides_shift, Hall. lia.
    + lia.
    + lia.
Qed.

(** Either some code among the first [n] is free, or all are stored. *)
Lemma first_free_or_all rng stored pos : forall n,
  (exists k, (k < n)%nat
             /\ (forall j, (j < k)%nat -> collides rng stored pos j)
             /\ ~ collides rng stored pos k)
  \/ (forall j, (j < n)%nat -> collides rng stored pos j).
Proof.
  induction n as [|n [(k & Hk & Hall & Hfree)|Hall]].
  - right. intros j Hj. lia.
  - left. exists k. split; [lia|done].
  - unfold collides in *.
    destruct (existing stored (randomCode rng (pos + 8 * n))) eqn:Hc.
    + right. intros j Hj. destruct (decide (j = n)) as [->|]; [done|].
      apply Hall. lia.
    + left. exists n. split; [lia|]. split; [done|]. by rewrite Hc.
Qed.

Lemma generate_first_free rng stored pos k :
  (k < 10)%nat ->
  (forall j, (j < k)%nat -> collides rng stored pos j) ->
  ~ collides rng stored pos k ->
  generateRedemptionCode rng stored pos
  = (Returned (randomCode rng (pos + 8 * k)), (pos + 8 * S k)%nat).
Proof.
  intros Hk Hall Hfree. unfold generateRedemptionCode.
  rewrite (do_while_first_free rng stored k _ pos 0 Hall Hfree).
  - rewrite bool_decide_eq_false_2; [done|]. unfold maxAttempts. lia.
  - change (Z.to_nat maxAttempts) with 10%nat. lia.
  - unfold maxAttempts. lia.
Qed.

Lemma generate_all_taken rng stored pos :
  (forall j, (j < 10)%nat -> collides rng stored pos j) ->
  generateRedemptionCode rng stored pos
  = (Thrown No_se_pudo_generar_un_codigo_de_canje_unico, (pos + 80)%nat).
Proof.
  intros Hall. unfold generateRedemptionCode.
  rewrite (do_while_all_taken rng stored 9 _ pos 0 Hall).
  - by rewrite bool_decide_eq_true_2.
  - change (Z.to_nat maxAttempts) with 10%nat. lia.
  - done.
Qed.

End RedemptionCode.

(** C7.  With a random source in [0, 1), [generateRedemptionCode] draws
    from an alphabet of 32 characters that holds none of [0], [O], [1] and
    [I]; a code it returns has 8 characters of that alphabet and is the
    redemption code of no stored row.  If the first [k < 10] codes it
    generates are stored and the next one is not, it returns that one after
    exactly [k] retries -- one retry when only the first code is a repeat;
    if the first 10 codes are all stored it throws after 10 generations.
    The [beforeCreate] hook leaves a row that needs no code unchanged in
    its code and asks for one when manual redemption is required and the
    row has none. *)
Theorem C7_redemption_code (rng : PrizeWinning.Random)
    (stored : list prize_winnings.row) (pos : nat) :
  unit_interval rng ->
  (length alphabet = 32%nat /\ Forall (fun c => c ∉ alphabet) ambiguous)
  /\ (forall code pos',
        PrizeWinning.generateRedemptionCode rng stored pos = (Returned code, pos') ->
        well_formed_code code
        /\ ~ Exists (fun w => prize_winnings.redemption_code w = Some code) stored)
  /\ (forall k, (k < 10)%nat ->
        (forall j, (j < k)%nat -> collides rng stored pos j) ->
        ~ collides rng stored pos k ->
        PrizeWinning.generateRedemptionCode rng stored pos
        = (Returned (PrizeWinning.randomCode rng (pos + 8 * k)), (pos + 8 * S k)%nat)
        /\ PrizeWinning.retries rng stored pos = k)
  /\ ((forall j, (j < 10)%nat -> collides rng stored pos j) ->
      PrizeWinning.generateRedemptionCode rng stored pos
      = (Thrown PrizeWinning.No_se_pudo_generar_un_codigo_de_canje_unico,
         (pos + 80)%nat)
      /\ PrizeWinning.generations rng stored pos = 10%nat)
  /\ (forall e tbl r,
        prize_winnings.manual_redemption_required r = true ->
        prize_winnings.redemption_code r = None ->
        match PrizeWinning.generateRedemptionCode rng stored pos with
        | (Returned code, pos') =>
            exists r',
              PrizeWinning.beforeCreate e tbl rng stored pos r = (Returned r', pos')
              /\ prize_winnings.redemption_code r' = Some code
        | (Thrown err, pos') =>
            PrizeWinning.beforeCreate e tbl rng stored pos r = (Thrown err, pos')
        end).
Proof.
  intros Hu. split; [|split; [|split; [|split]]]; cycle 4.
  - intros e tbl r Hm Hc. unfold PrizeWinning.beforeCreate.
    rewrite Hm, Hc. cbn [PrizeWinning.falsy_string andb].
    destruct (PrizeWinning.generateRedemptionCode rng stored pos) as [[code|err] p];
      [|done].
    eexists. split; [reflexivity|]. done.
  - split; [reflexivity|]. unfold ambiguous. repeat constructor; compute_done.
  - intros code pos' Hgen.
    destruct (first_free_or_all rng stored pos 10) as [(k & Hk & Hall & Hfree)|Hall].
    + rewrite (generate_first_free rng stored pos k Hk Hall Hfree) in Hgen.
      injection Hgen as <- _. split; [by apply randomCode_ok|].
      intros Hex. apply Hfree. unfold collides, PrizeWinning.existing.
      by apply bool_decide_eq_true_2.
    + rewrite (generate_all_taken rng stored pos Hall) in Hgen. discriminate.
  - intros k Hk Hall Hfree.
    pose proof (generate_first_free rng stored pos k Hk Hall Hfree) as Hgen.
    split; [exact Hgen|].
    unfold PrizeWinning.retries, PrizeWinning.generations. rewrite Hgen.
    cbn [snd]. replace (pos + 8 * S k - pos)%nat with (S k * 8)%nat by lia.
    rewrite Nat.div_mul by lia. lia.
  - intros Hall. pose proof (generate_all_taken rng stored pos Hall) as Hgen.
    split; [exact Hgen|].
    unfold PrizeWinning.generations. rewrite Hgen. cbn [snd].
    replace (pos + 80 - pos)%nat with (10 * 8)%nat by lia.
    by rewrite Nat.div_mul by lia.
Qed.

Lemma C7_witness :
  unit_interval rng_repeat
  /\ PrizeWinning.generateRedemptionCode rng_repeat stored_A 0
     = (Returned "SSSSSSSS", 16%nat)
  /\ PrizeWinning.retries rng_repeat stored_A 0 = 1%nat.
Proof.
  assert (unit_interval rng_repeat) as Hu.
  { intros n. unfold rng_repeat. destruct (n <? 8)%nat; split; compute; congruence. }
  split; [exact Hu|].
  destruct (C7_redemption_code rng_repeat stored_A 0 Hu) as (_ & _ & H & _).
  apply (H 1%nat).
  - lia.
  - intros j Hj. replace j with 0%nat by lia. vm_compute. reflexivity.
  - vm_compute. discriminate.
Defined.

(** ** Weighted selector *)

Section Selection.
Import roulettes Roulette.









End Selection.


Section Validation.
Import roulettes Roulette.





End Validation.



(** ** Limits *)

Section Limits.
Import Clock prizes.







End Limits.


(** ** Stock *)

Section Stock.
Import prizes Engine.

Lemma isAvailable_stock now p s :
  Prize.isAvailable now p = Allowed ->
  stock_quantity p = Some s -> awarded_count p < s.
Proof.
  unfold Prize.isAvailable. intros H Hs. rewrite Hs in H.
  destruct (negb (is_active p)); [discriminate|].
  destruct (bool_decide (now < valid_from p)); [discriminate|].
  destruct (match valid_until p with Some _ => _ | None => _ end);
    [discriminate|].
  case_bool_decide; [discriminate|]. lia.
Qed.

Lemma beforeCreate_prize_id e tp rng stored pos values r pos' :
  PrizeWinning.beforeCreate e tp rng stored pos values = (Returned r, pos') ->
  prize_winnings.prize_id r = prize_winnings.prize_id values.
Proof.
  unfold PrizeWinning.beforeCreate.
  destruct (_ && _).
  - destruct (PrizeWinning.generateRedemptionCode rng stored pos) as [[c|err] p];
      [|discriminate]. by intros [= <- _].
  - by intros [= <- _].
Qed.

(** The [prizes] table after [afterCreate]: the awarded prize, if found,
    has one more award; nothing else changes. *)
Lemma afterCreate_prizes m tp tr r :
  (PrizeWinning.afterCreate m tp tr r).1
  = if has_Prize m then
      match tp !! prize_winnings.prize_id r with
      | Some prize => <[id prize := Prize.incrementAwarded prize]> tp
      | None => tp
      end
    else tp.
Proof. reflexivity. Qed.

Lemma insert_awarded_preserves tp prize :
  keyed_by_id tp -> stock_respected tp ->
  tp !! id prize = Some prize ->
  (forall s, stock_quantity prize = Some s -> awarded_count prize < s) ->
  keyed_by_id (<[id prize := Prize.incrementAwarded prize]> tp)
  /\ stock_respected (<[id prize := Prize.incrementAwarded prize]> tp).
Proof.
  intros Hk Hs Hl Hlt. split.
  - intros k p. destruct (decide (id prize = k)) as [<-|Hne].
    + rewrite lookup_insert_eq. by intros [= <-].
    + rewrite lookup_insert_ne by done. apply Hk.
  - intros k p s. destruct (decide (id prize = k)) as [<-|Hne].
    + rewrite lookup_insert_eq. intros [= <-]. cbn. intros Hq.
      specialize (Hlt s Hq). lia.
    + rewrite lookup_insert_ne by done. apply Hs.
Qed.

Lemma draw_prizes e rng values db :
  let res := draw e rng values db in
  tbl_prizes res.2 = tbl_prizes db
  \/ exists prize,
       is_returned res.1 = true
       /\ tbl_prizes db !! prize_winnings.prize_id values = Some prize
       /\ Prize.isAvailable (PrizeWinning.now e) prize = Allowed
       /\ Prize.checkLimits (PrizeWinning.models e) (tbl_winnings db)
            (PrizeWinning.now e) prize = Allowed
       /\ tbl_prizes res.2 = <[id prize := Prize.incrementAwarded prize]> (tbl_prizes db).
Proof.
  cbn zeta. unfold draw.
  destruct (tbl_prizes db !! prize_winnings.prize_id values) as [prize|] eqn:Hl;
    [|by left].
  destruct (Prize.isAvailable (PrizeWinning.now e) prize) eqn:Ha; [|by left].
  destruct (Prize.checkLimits _ _ _ prize) eqn:Hc; [|by left].
  unfold create.
  destruct (PrizeWinning.beforeCreate _ _ _ _ _ values) as [[r|err] pos] eqn:Hb;
    [|by left].
  apply beforeCreate_prize_id in Hb.
  pose proof (afterCreate_prizes (PrizeWinning.models e) (tbl_prizes db)
                (tbl_roulettes db) (set_created_at (PrizeWinning.now e) r)) as Hp.
  destruct (PrizeWinning.afterCreate _ _ _ _) as [tp tr]. cbn [fst snd] in *.
  change (prize_winnings.prize_id (set_created_at (PrizeWinning.now e) r))
    with (prize_winnings.prize_id r) in Hp.
  rewrite Hb, Hl in Hp. subst tp.
  destruct (has_Prize (PrizeWinning.models e)); [|by left].
  right. exists prize. done.
Qed.

Lemma draw_preserves e rng values db :
  keyed_by_id (tbl_prizes db) -> stock_respected (tbl_prizes db) ->
  keyed_by_id (tbl_prizes (draw e rng values db).2)
  /\ stock_respected (tbl_prizes (draw e rng values db).2).
Proof.
  intros Hk Hs.
  destruct (draw_prizes e rng values db) as [->|(prize & _ & Hl & Ha & _ & ->)];
    [done|].
  pose proof (Hk _ _ Hl) as Hid.
  apply insert_awarded_preserves; try done.
  - by rewrite Hid.
  - intros s. by apply (isAvailable_stock (PrizeWinning.now e)).
Qed.

Lemma draws_preserve rng reqs : forall db,
  keyed_by_id (tbl_prizes db) -> stock_respected (tbl_prizes db) ->
  keyed_by_id (tbl_prizes (draws rng reqs db))
  /\ stock_respected (tbl_prizes (draws rng reqs db)).
Proof.
  induction reqs as [|[e values] rest IH]; intros db Hk Hs; cbn [draws]; [done|].
  destruct (draw_preserves e rng values db Hk Hs). by apply IH.
Qed.

End Stock.

(** C8.  Starting from a [prizes] table keyed by [id] in which no prize
    with a stock ceiling has more awards than its ceiling, any sequence of
    draws -- availability check, then creation of the won-prize row, whose
    [afterCreate] hook calls [incrementAwarded] -- leaves a table with the
    same property: [awarded_count] never exceeds [stock_quantity].  A draw
    that succeeds with the Prize model registered has passed the
    availability check and adds exactly one award to its prize. *)
Theorem C8_awarded_within_stock (rng : PrizeWinning.Random)
    (reqs : list (PrizeWinning.Env * prize_winnings.row)) (db : Engine.DB) :
  keyed_by_id (Engine.tbl_prizes db) ->
  stock_respected (Engine.tbl_prizes db) ->
  stock_respected (Engine.tbl_prizes (Engine.draws rng reqs db))
  /\ (forall e values r db',
        Engine.draw e rng values db = (Returned r, db') ->
        has_Prize (PrizeWinning.models e) = true ->
        exists prize,
          Engine.tbl_prizes db !! prize_winnings.prize_id values = Some prize
          /\ Prize.isAvailable (PrizeWinning.now e) prize = Allowed
          /\ Engine.tbl_prizes db' !! prize_winnings.prize_id values
             = Some (Prize.incrementAwarded prize)).
Proof.
  intros Hk Hs. split; [by apply draws_preserve|].
  intros e values r db' Hd Hm.
  pose proof (draw_prizes e rng values db) as Hp. cbn zeta in Hp.
  rewrite Hd in Hp. cbn [fst snd] in Hp.
  destruct Hp as [Hsame|(prize & _ & Hl & Ha & _ & ->)].
  - exfalso. revert Hd Hsame. unfold Engine.draw.
    destruct (Engine.tbl_prizes db !! prize_winnings.prize_id values)
      as [prize|] eqn:Hl; [|discriminate].
    destruct (Prize.isAvailable _ prize) eqn:Ha; [|discriminate].
    destruct (Prize.checkLimits _ _ _ prize); [|discriminate].
    unfold Engine.create.
    destruct (PrizeWinning.beforeCreate _ _ _ _ _ values) as [[r1|err] pos] eqn:Hb;
      [|discriminate].
    apply beforeCreate_prize_id in Hb.
    pose proof (afterCreate_prizes (PrizeWinning.models e) (Engine.tbl_prizes db)
                  (Engine.tbl_roulettes db)
                  (Engine.set_created_at (PrizeWinning.now e) r1)) as Hp.
    destruct (PrizeWinning.afterCreate _ _ _ _) as [tp tr]. cbn [fst] in Hp.
    change (prize_winnings.prize_id (Engine.set_created_at (PrizeWinning.now e) r1))
      with (prize_winnings.prize_id r1) in Hp.
    rewrite Hb, Hl, Hm in Hp. subst tp.
    intros [= _ <-]. cbn [Engine.tbl_prizes]. intros Heq.
    pose proof (Hk _ _ Hl) as Hid.
    assert (Engine.tbl_prizes db !! prizes.id prize
            = Some (Prize.incrementAwarded prize)) as Hbad
      by (rewrite <- Heq; apply lookup_insert_eq).
    rewrite Hid, Hl in Hbad. injection Hbad as Hbad.
    apply (f_equal prizes.awarded_count) in Hbad. cbn in Hbad. lia.
  - exists prize. split; [done|]. split; [done|].
    rewrite <- (Hk _ _ Hl). apply lookup_insert_eq.
Qed.

(** ** Limits and the status of the rows counted *)

Section StatusBlind.
Import Clock.







End StatusBlind.


(** ** The statements at work on the small gym *)





Lemma C6_witness :
  (PrizeWinning.cancel (env_at 1000) (Some "staff") (Some "error")
     (won "w1" "C" pending 500, world_A)).1 = Returned tt
  /\ PrizeWinning.cancel (env_at 1000) (Some "staff") (Some "error")
       (won "w1" "C" applied 500, world_A)
     = (Thrown PrizeWinning.No_se_puede_cancelar_un_premio_ya_aplicado_o_canjeado,
        (won "w1" "C" applied 500, world_A)).
Proof.
  split.
  - destruct (C6_cancel_guard (env_at 1000) (Some "staff") (Some "error")
                (won "w1" "C" pending 500) world_A) as [Hok _].
    apply Hok. left. reflexivity.
  - destruct (C6_cancel_guard (env_at 1000) (Some "staff") (Some "error")
                (won "w1" "C" applied 500) world_A) as [_ Hno].
    apply Hno. left. reflexivity.
Defined.

Lemma keyed_prizes_A : keyed_by_id prizes_A.
Proof.
  intros k p H. unfold prizes_A in H.
  apply lookup_singleton_Some in H as [<- <-]. reflexivity.
Defined.

Lemma stock_prizes_A : stock_respected prizes_A.
Proof.
  intros k p s H. unfold prizes_A in H.
  apply lookup_singleton_Some in H as [<- <-].
  intros [= <-]. vm_compute. discriminate.
Defined.

Lemma C8_witness :
  stock_respected (Engine.tbl_prizes
    (Engine.draws rng_repeat
       [(env_at at_0900, Engine.new_winning "w1" "C" "A" (Some "R") false false);
        (env_at at_1000, Engine.new_winning "w2" "D" "A" (Some "R") false false)]
       db_A)).
Proof.
  exact (proj1 (C8_awarded_within_stock rng_repeat _ db_A
                  keyed_prizes_A stock_prizes_A)).
Defined.


(** * Further properties of the code *)

(** ** Age and eligibility *)

Section EligibilityRules.
Import Clock clients Eligibility.

Lemma truthyZ_Some o n : truthyZ o = Some n <-> o = Some n /\ n <> 0.
Proof.
  unfold truthyZ. destruct o as [k|]; [|split; [discriminate|intros [? _]; discriminate]].
  case_bool_decide; split.
  - discriminate.
  - intros [[= ->] ?]. done.
  - intros [= ->]. done.
  - intros [[= ->] _]. done.
Qed.

Lemma truthyZ_None o : truthyZ o = None <-> o = None \/ o = Some 0.
Proof.
  unfold truthyZ. destruct o as [k|]; [|split; auto].
  case_bool_decide as Hk.
  - split; [intros _; right; by subst|done].
  - split; [discriminate|]. intros [H|H]; [discriminate|].
    injection H as ->. done.
Qed.

Lemma too_young_None today client ru :
  too_young today client ru = None <-> old_enough today client ru.
Proof.
  unfold too_young, old_enough.
  destruct (truthyZ (minimum_age ru)) as [n|] eqn:E.
  - apply truthyZ_Some in E as [E Hn]. case_bool_decide as Hlt; split.
    + discriminate.
    + intros H. specialize (H n E Hn). lia.
    + intros _ k Hk _. rewrite E in Hk. injection Hk as <-. lia.
    + done.
  - apply truthyZ_None in E. split; [|done].
    intros _ n Hn Hn0. destruct E as [E|E]; rewrite E in Hn; congruence.
Qed.

Lemma too_recent_false now client ru :
  too_recent now client ru = false <-> member_long_enough now client ru.
Proof.
  unfold too_recent, member_long_enough, membershipDays, ms_per_day.
  set (x := now - registration_date client).
  set (k := minimum_membership_days ru).
  pose proof (Z.div_mod x 86400000 ltac:(lia)) as Hd.
  pose proof (Z.mod_pos_bound x 86400000 ltac:(lia)) as Hb.
  repeat case_bool_decide; cbn; split; try done; intros; lia.
Qed.

Lemma excluded_false m client ru :
  excluded m client ru = false <-> membership_not_excluded m client ru.
Proof.
  unfold excluded, membership_not_excluded.
  destruct (excluded_membership_types ru) as [types|]; [|split; [intros _ ? ? ? [=]|done]].
  destruct (has_ClientMembership m); cbn; [|split; [intros _ ? ? ? _ [=]|done]].
  destruct (memberships client) as [|cur rest]; [split; [intros _ ? ? ? _ _ [=]|done]|].
  case_bool_decide as Hin; split.
  - discriminate.
  - intros H. exfalso. by apply (H types cur rest).
  - intros _ ? ? ? [= <-] _ [= <- <-]. done.
  - done.
Qed.

Lemma capped_false m winnings clientId p :
  capped m winnings clientId p = false <-> under_client_cap m winnings clientId p.
Proof.
  unfold capped, under_client_cap.
  destruct (truthyZ (prizes.max_per_client p)) as [cap|] eqn:E.
  - apply truthyZ_Some in E as [E Hn].
    destruct (has_PrizeWinning m); cbn.
    + case_bool_decide as Hc; split.
      * discriminate.
      * intros H. specialize (H cap E Hn eq_refl). lia.
      * intros _ k Hk _ _. rewrite E in Hk. injection Hk as <-. lia.
      * done.
    + split; [intros _ ? _ _ [=]|done].
  - apply truthyZ_None in E. split; [|done].
    intros _ cap Hc Hn. destruct E as [E|E]; rewrite E in Hc; congruence.
Qed.

End EligibilityRules.



(** X2.  [checkClientEligibility] answers eligible exactly when the Client
    model is registered, the client exists and the four rules hold: the
    age reaches a non-zero minimum age, the time since registration covers
    the minimum membership days when these are positive, the first loaded
    active membership is not of an excluded type, and the client's wins of
    this prize are below a non-zero per-client cap. *)
Theorem X2_eligible_iff_all_rules (m : Models) (tc : gmap string clients.row)
    (winnings : list prize_winnings.row) (today : clients.civil)
    (now : Clock.Date) (clientId : string) (p : prizes.row)
    (ru : Eligibility.rules) :
  Eligibility.checkClientEligibility m tc winnings today now clientId p ru = Allowed
  <-> has_Client m = true
      /\ exists client,
           tc !! clientId = Some client
           /\ old_enough today client ru
           /\ member_long_enough now client ru
           /\ membership_not_excluded m client ru
           /\ under_client_cap m winnings clientId p.
Proof.
  unfold Eligibility.checkClientEligibility.
  destruct (has_Client m); cbn [negb];
    [|split; [discriminate|intros [[=] _]]].
  destruct (tc !! clientId) as [client|];
    [|split; [discriminate|intros [_ (? & [=] & _)]]].
  split.
  - intros H. split; [done|]. exists client. split; [done|].
    rewrite <- too_young_None, <- too_recent_false, <- excluded_false,
      <- capped_false.
    destruct (Eligibility.too_young today client ru); [discriminate|].
    destruct (Eligibility.too_recent now client ru); [discriminate|].
    destruct (Eligibility.excluded m client ru); [discriminate|].
    destruct (Eligibility.capped m winnings clientId p); [discriminate|].
    done.
  - intros [_ (c' & [= <-] & Hy & Hr & He & Hc)].
    apply too_young_None in Hy. apply too_recent_false in Hr.
    apply excluded_false in He. apply capped_false in Hc.
    by rewrite Hy, Hr, He, Hc.
Qed.

Lemma X2_witness :
  Eligibility.checkClientEligibility all_models
    {[ "C" := client_born 2000 10 2 ]} [] (clients.mkCivil 2026 10 1)
    (40 * Clock.ms_per_day) "C" prize_A adults_only = Allowed.
Proof.
  apply (proj2 (X2_eligible_iff_all_rules all_models
                  {[ "C" := client_born 2000 10 2 ]} [] (clients.mkCivil 2026 10 1)
                  (40 * Clock.ms_per_day) "C" prize_A adults_only)).
  split; [reflexivity|]. exists (client_born 2000 10 2).
  split; [reflexivity|]. split; [|split; [|split]].
  - intros n [= <-] _. vm_compute. discriminate.
  - intros _. vm_compute. discriminate.
  - intros types current rest [= <-] _ [= <- <-]. compute_done.
  - intros cap [=].
Defined.

(** X3.  For a client that exists, [checkClientEligibility] reports the
    first rule that fails, in the order age, membership days, excluded
    membership type, per-client cap, whatever the later rules would say. *)
Theorem X3_first_failing_rule (m : Models) (tc : gmap string clients.row)
    (winnings : list prize_winnings.row) (today : clients.civil)
    (now : Clock.Date) (clientId : string) (client : clients.row)
    (p : prizes.row) (ru : Eligibility.rules) :
  has_Client m = true ->
  tc !! clientId = Some client ->
  let result :=
    Eligibility.checkClientEligibility m tc winnings today now clientId p ru in
  (forall n, Eligibility.minimum_age ru = Some n -> n <> 0 ->
             Eligibility.number_of (Client.getAge today client) < n ->
             result = Denied (Eligibility.Edad_minima_requerida n))
  /\ (old_enough today client ru ->
      0 < Eligibility.minimum_membership_days ru ->
      now - clients.registration_date client
      < Eligibility.minimum_membership_days ru * Clock.ms_per_day ->
      result = Denied (Eligibility.Requiere_dias_de_membresia
                         (Eligibility.minimum_membership_days ru)))
  /\ (old_enough today client ru ->
      member_long_enough now client ru ->
      forall types current rest,
        Eligibility.excluded_membership_types ru = Some types ->
        has_ClientMembership m = true ->
        clients.memberships client = current :: rest ->
        current ∈ types ->
        result = Denied Eligibility.Tipo_de_membresia_no_elegible)
  /\ (old_enough today client ru ->
      member_long_enough now client ru ->
      membership_not_excluded m client ru ->
      forall cap, prizes.max_per_client p = Some cap -> cap <> 0 ->
                  has_PrizeWinning m = true ->
                  cap <= Eligibility.clientCount winnings clientId (prizes.id p) ->
                  result = Denied Eligibility.Limite_por_cliente_alcanzado).
Proof.
  intros Hm Hc result. unfold result, Eligibility.checkClientEligibility.
  rewrite Hm, Hc. cbn [negb].
  split; [|split; [|split]].
  - intros n Hn Hn0 Hlt. unfold Eligibility.too_young.
    rewrite (proj2 (truthyZ_Some _ n) (conj Hn Hn0)).
    by rewrite bool_decide_eq_true_2.
  - intros Hold Hpos Hlt. apply too_young_None in Hold. rewrite Hold.
    assert (Eligibility.too_recent now client ru = true) as ->; [|done].
    destruct (Eligibility.too_recent now client ru) eqn:E; [done|].
    apply too_recent_false in E. specialize (E Hpos). lia.
  - intros Hold Hlong types current rest Ht Hcm Hmem Hin.
    apply too_young_None in Hold. apply too_recent_false in Hlong.
    rewrite Hold, Hlong. unfold Eligibility.excluded.
    rewrite Ht, Hcm, Hmem. cbn [andb]. by rewrite bool_decide_eq_true_2.
  - intros Hold Hlong Hex cap Hcap Hn0 Hpw Hle.
    apply too_young_None in Hold. apply too_recent_false in Hlong.
    apply excluded_false in Hex. rewrite Hold, Hlong, Hex.
    unfold Eligibility.capped.
    rewrite (proj2 (truthyZ_Some _ cap) (conj Hcap Hn0)), Hpw. cbn [andb].
    by rewrite bool_decide_eq_true_2.
Qed.

Lemma X3_witness :
  Eligibility.checkClientEligibility all_models
    {[ "C" := client_born 2010 1 1 ]} [] (clients.mkCivil 2026 10 1)
    0 "C" prize_A adults_only
  = Denied (Eligibility.Edad_minima_requerida 18).
Proof.
  destruct (X3_first_failing_rule all_models {[ "C" := client_born 2010 1 1 ]} []
              (clients.mkCivil 2026 10 1) 0 "C" (client_born 2010 1 1)
              prize_A adults_only eq_refl (lookup_singleton_eq _ _)) as [Hage _].
  apply Hage; [reflexivity|discriminate|vm_compute; reflexivity].
Defined.

(** X4.  A client without date of birth fails the age rule of every prize
    whose minimum age is positive, and a missing Client model or a missing
    client gives a reasoned refusal rather than an exception. *)
Theorem X4_unknown_age_is_too_young (m : Models) (tc : gmap string clients.row)
    (winnings : list prize_winnings.row) (today : clients.civil)
    (now : Clock.Date) (clientId : string) (p : prizes.row)
    (ru : Eligibility.rules) :
  let result :=
    Eligibility.checkClientEligibility m tc winnings today now clientId p ru in
  (has_Client m = false -> result = Denied Eligibility.Modelo_Cliente_no_disponible)
  /\ (has_Client m = true -> tc !! clientId = None ->
      result = Denied Eligibility.Cliente_no_encontrado)
  /\ (has_Client m = true ->
      forall client n,
        tc !! clientId = Some client ->
        clients.date_of_birth client = None ->
        Eligibility.minimum_age ru = Some n -> 0 < n ->
        result = Denied (Eligibility.Edad_minima_requerida n)).
Proof.
  intros result. unfold result, Eligibility.checkClientEligibility.
  split; [|split].
  - intros ->. done.
  - intros -> ->. done.
  - intros -> client n -> Hb Hn Hpos. cbn [negb].
    unfold Eligibility.too_young, Client.getAge. rewrite Hb.
    assert (n <> 0) as Hn0 by lia.
    rewrite (proj2 (truthyZ_Some _ n) (conj Hn Hn0)).
    cbn [Eligibility.number_of]. by rewrite bool_decide_eq_true_2.
Qed.

Lemma X4_witness :
  Eligibility.checkClientEligibility all_models
    {[ "D" := client_unknown_age ]} [] (clients.mkCivil 2026 10 1)
    0 "D" prize_A adults_only
  = Denied (Eligibility.Edad_minima_requerida 18).
Proof.
  destruct (X4_unknown_age_is_too_young all_models {[ "D" := client_unknown_age ]} []
              (clients.mkCivil 2026 10 1) 0 "D" prize_A adults_only)
    as (_ & _ & H).
  apply (H eq_refl client_unknown_age 18);
    [apply lookup_singleton_eq|reflexivity|reflexivity|lia].
Defined.

(** ** Spins: availability, caps and cooldown *)

Section Spins.
Import Clock roulettes Roulette.


Lemma elem_of_spinsSince ws c ro start w :
  w ∈ spinsSince ws c ro start
  <-> w ∈ ws /\ spin_of c ro w /\ start <= prize_winnings.created_at w.
Proof.
  unfold spinsSince, spin_of. rewrite list_elem_of_filter. tauto.
Qed.

Lemma latest_None rows : latest rows = None <-> rows = [].
Proof.
  destruct rows as [|w rows]; [done|]. cbn [latest foldr].
  fold (latest rows). destruct (latest rows); split; discriminate.
Qed.

Lemma latest_Some rows : forall d,
  latest rows = Some d ->
  (exists w, w ∈ rows /\ prize_winnings.created_at w = d)
  /\ (forall w, w ∈ rows -> prize_winnings.created_at w <= d).
Proof.
  induction rows as [|w rows IH]; intros d; [discriminate|].
  cbn [latest foldr]. fold (latest rows).
  destruct (latest rows) as [d'|] eqn:E.
  - intros [= <-]. destruct (IH d' eq_refl) as [(w' & Hin & Hc) Hmax].
    split.
    + destruct (Z.max_spec d' (prize_winnings.created_at w)) as [[_ ->]|[_ ->]].
      * exists w. split; [left|done].
      * exists w'. split; [by right|done].
    + intros x Hx. apply elem_of_cons in Hx as [->|Hx]; [lia|].
      specialize (Hmax x Hx). lia.
  - intros [= <-]. apply latest_None in E. subst rows. split.
    + exists w. split; [left|done].
    + intros x Hx. apply elem_of_cons in Hx as [->|Hx]; [lia|].
      by apply elem_of_nil in Hx.
Qed.


Lemma cap_check_false column n :
  match truthyZ column with
  | Some cap => bool_decide (cap <= n)
  | None => false
  end = false
  <-> forall cap, column = Some cap -> cap <> 0 -> n < cap.
Proof.
  destruct (truthyZ column) as [cap|] eqn:E.
  - apply truthyZ_Some in E as [-> Hn]. case_bool_decide; split.
    + discriminate.
    + intros H'. specialize (H' cap eq_refl Hn). lia.
    + intros _ k [= <-] _. lia.
    + done.
  - apply truthyZ_None in E. split; [|done].
    intros _ cap Hc Hn. destruct E as [E|E]; rewrite E in Hc; congruence.
Qed.

End Spins.

(** X5.  [canClientSpin] allows a spin exactly when the roulette is
    available at that time, the client's spins on it since the start of the
    day and since the start of the week are below the configured caps, and
    no spin of the client on it falls within the cooldown. *)
Theorem X5_canClientSpin_allows_iff (ws : list prize_winnings.row)
    (now : Clock.Date) (clientId : string) (ro : roulettes.row) :
  Roulette.canClientSpin ws now clientId ro = Allowed
  <-> Roulette.isAvailable now ro = Allowed
      /\ spins_below (roulettes.max_spins_per_day ro) ws clientId ro
           (Clock.todayStart now)
      /\ spins_below (roulettes.max_spins_per_week ro) ws clientId ro
           (Clock.weekStart now)
      /\ cooled_down ws now clientId ro.
Proof.
  unfold Roulette.canClientSpin, spins_below, cooled_down.
  destruct (Roulette.isAvailable now ro) as [|reason];
    [|split; [discriminate|intros [[=] _]]].
  rewrite <- !cap_check_false.
  destruct (match truthyZ (roulettes.max_spins_per_day ro) with
            | Some _ => _ | None => _ end);
    [split; [discriminate|intros (_ & [=] & _)]|].
  destruct (match truthyZ (roulettes.max_spins_per_week ro) with
            | Some _ => _ | None => _ end);
    [split; [discriminate|intros (_ & _ & [=] & _)]|].
  case_bool_decide as Hcd; [|split; [intros _; repeat split; intros; lia|done]].
  destruct (Roulette.latest _) as [d|] eqn:E.
  - split; [discriminate|]. intros (_ & _ & _ & Hcool).
    apply latest_Some in E as [(w & Hin & Hw) _].
    apply elem_of_spinsSince in Hin as (Hin & Hspin & Hge).
    specialize (Hcool Hcd w Hin Hspin). unfold Clock.subMinutes in Hge. lia.
  - split; [|done]. intros _. repeat split. intros _ w Hin Hspin.
    apply latest_None in E.
    destruct (decide (now - roulettes.cooldown_minutes ro * Clock.ms_per_minute
                      <= prize_winnings.created_at w)) as [Hge|Hlt]; [|lia].
    assert (w ∈ Roulette.spinsSince ws clientId ro
                  (Clock.subMinutes now (roulettes.cooldown_minutes ro))) as Hw
      by (apply elem_of_spinsSince; done).
    rewrite E in Hw. by apply elem_of_nil in Hw.
Qed.



(** ** Days until expiry *)

(** X7.  [getDaysUntilExpiration] is null for a row that never expires and
    otherwise the number of days left, rounded up and never negative: it is
    0 exactly when the expiry is not in the future, which covers every row
    that [isExpired] reports as expired, and otherwise the expiry lies
    within the last of the days counted. *)
Theorem X7_days_until_expiration (now : Clock.Date) (r : prize_winnings.row) :
  (prize_winnings.expires_date r = None ->
   PrizeWinningQueries.getDaysUntilExpiration now r = None)
  /\ (forall e, prize_winnings.expires_date r = Some e ->
        exists d,
          PrizeWinningQueries.getDaysUntilExpiration now r = Some d
          /\ 0 <= d
          /\ (d = 0 <-> e <= now)
          /\ (now < e ->
              (d - 1) * Clock.ms_per_day < e - now <= d * Clock.ms_per_day)
          /\ (PrizeWinning.isExpired now r = true -> d = 0)).
Proof.
  unfold PrizeWinningQueries.getDaysUntilExpiration, PrizeWinning.isExpired.
  split; [by intros ->|]. intros e ->.
  eexists. split; [reflexivity|].
  unfold PrizeWinningQueries.ceil_days, Clock.ms_per_day.
  pose proof (Z.div_mod (- (e - now)) 86400000 ltac:(lia)) as Hd.
  pose proof (Z.mod_pos_bound (- (e - now)) 86400000 ltac:(lia)) as Hb.
  split; [lia|]. split; [split; lia|]. split; [lia|].
  case_bool_decide; [lia|discriminate].
Qed.

Lemma X7_witness :
  PrizeWinningQueries.getDaysUntilExpiration 0 (won_until (36 * 3600000))
  = Some 2.
Proof.
  destruct (X7_days_until_expiration 0 (won_until (36 * 3600000)))
    as [_ H].
  destruct (H (36 * 3600000) eq_refl) as (d & -> & H0 & _ & Hin & _).
  f_equal. specialize (Hin ltac:(lia)). unfold Clock.ms_per_day in Hin. lia.
Defined.

(** ** Lifecycle: what stays and what is counted *)

Section Frame.
Import Clock prize_winnings PrizeWinning.

Lemma frame_refl r : lifecycle_frame r r.
Proof. by repeat split. Qed.

Lemma frame_trans r1 r2 r3 :
  lifecycle_frame r1 r2 -> lifecycle_frame r2 r3 -> lifecycle_frame r1 r3.
Proof.
  intros (A1 & A2 & A3 & A4 & A5 & A6) (B1 & B2 & B3 & B4 & B5 & B6).
  repeat split; try congruence. auto.
Qed.

Lemma frame_save now prev r : lifecycle_frame r (save now prev r).
Proof. by repeat split. Qed.

Lemma sendNotification_frame e ty r w :
  lifecycle_frame r (sendNotification e ty (r, w)).1
  /\ prizes_tbl (sendNotification e ty (r, w)).2 = prizes_tbl w
  /\ status (sendNotification e ty (r, w)).1 = status r
  /\ verified (sendNotification e ty (r, w)).1 = verified r.
Proof.
  unfold sendNotification.
  destruct (negb (has_Notification (models e))); cbn [fst snd].
  - split; [apply frame_refl|done].
  - split; [by repeat split|done].
Qed.

(** The row and the prizes after [apply]: untouched, or applied with one
    redemption counted. *)
Lemma apply_frame e u r w :
  lifecycle_frame r (apply e u (r, w)).2.1
  /\ prizes_step (r, w) (apply e u (r, w)).2
  /\ verified (apply e u (r, w)).2.1 = verified r
  /\ (status (apply e u (r, w)).2.1 = status r
      \/ status (apply e u (r, w)).2.1 = applied).
Proof.
  unfold apply.
  destruct (canBeApplied (now e) r) eqn:Hc;
    [|split; [apply frame_refl|split; [by left|split; [done|by left]]]].
  apply canBeApplied_Allowed in Hc as (Hp & _ & _).
  destruct (has_Prize (models e));
    [|split; [apply frame_refl|split; [by left|split; [done|by left]]]].
  destruct (prizes_tbl w !! prize_id r) as [prize|] eqn:Hl;
    [|split; [apply frame_refl|split; [by left|split; [done|by left]]]].
  destruct (Prize.applyToClient (models e) (dir e) (client_id r) prize)
    as [[[|reason]|[]] evs];
    cbv beta iota zeta delta [is_allowed];
    [|split; [apply frame_refl|split; [by left|split; [done|by left]]]..].
  set (r1 := save (now e) r (set_applied (now e) u r)).
  set (w2 := put_prize (Prize.incrementRedeemed prize) (emit evs w)).
  assert (lifecycle_frame r r1) as Hf1 by (by repeat split).
  assert (prizes_step (r, w) (r1, w2)) as Hp1.
  { right. split; [done|]. split; [done|]. exists prize. done. }
  destruct (negb (notification_sent r1)).
  - destruct (sendNotification_frame e "won" r1 w2) as (Hf & Ht & Hs & Hv).
    split; [by eapply frame_trans|]. split; [|split].
    + right. cbn [fst snd]. rewrite Hs, Ht. split; [done|]. split; [done|].
      exists prize. done.
    + cbn [fst snd]. by rewrite Hv.
    + right. cbn [fst snd]. by rewrite Hs.
  - split; [done|]. split; [done|]. split; [done|by right].
Qed.

Lemma redeem_frame e u n r w :
  lifecycle_frame r (redeem e u n (r, w)).2.1
  /\ prizes_step (r, w) (redeem e u n (r, w)).2
  /\ verified (redeem e u n (r, w)).2.1 = verified r.
Proof.
  unfold redeem. case_bool_decide as Hs;
    [split; [apply frame_refl|split; [by left|done]]|].
  destruct (isExpired (now e) r);
    [split; [apply frame_refl|split; [by left|done]]|].
  assert (status r = pending) as Hp by (by destruct (decide (status r = pending))).
  set (r1 := save (now e) r (set_redeemed (now e) u n r)).
  match goal with |- context [sendNotification e "redeemed" (r1, ?w0)] =>
    set (w1 := w0) end.
  destruct (sendNotification_frame e "redeemed" r1 w1) as (Hf & Ht & Hst & Hv).
  split; [eapply frame_trans; [|exact Hf]; by repeat split|].
  split; [|cbn [fst snd]; by rewrite Hv].
  unfold prizes_step. cbn [fst snd]. rewrite Ht, Hst. unfold w1.
  destruct (has_Prize (models e)); [|by left].
  change (prize_id r1) with (prize_id r).
  destruct (prizes_tbl w !! prize_id r) as [prize|] eqn:Hl; [|by left].
  right. split; [done|]. split; [done|]. exists prize. done.
Qed.

Lemma cancel_frame e u why r w :
  lifecycle_frame r (cancel e u why (r, w)).2.1
  /\ prizes_tbl (cancel e u why (r, w)).2.2 = prizes_tbl w
  /\ verified (cancel e u why (r, w)).2.1 = verified r.
Proof.
  unfold cancel. case_bool_decide as Hs; [split; [apply frame_refl|done]|].
  set (r1 := save (now e) r (set_cancelled (now e) u why r)).
  destruct (sendNotification_frame e "cancelled" r1 w) as (Hf & Ht & _ & Hv).
  split; [eapply frame_trans; [|exact Hf]; by repeat split|].
  cbn [fst snd]. by rewrite Ht, Hv.
Qed.

Lemma verify_frame e u r w :
  lifecycle_frame r (verify e u (r, w)).2.1
  /\ prizes_step (r, w) (verify e u (r, w)).2
  /\ verified (verify e u (r, w)).2.1 = true.
Proof.
  unfold verify.
  set (r1 := save (now e) r (set_verified (now e) u r)).
  assert (lifecycle_frame r r1) as Hf1 by (by repeat split).
  match goal with |- context [if ?b then _ else _] => destruct b end.
  - destruct (apply_frame e u r1 w) as (Hf & Hp & Hv & _).
    destruct (apply e u (r1, w)) as [[res|err] s']; cbn [fst snd] in *.
    + split; [by eapply frame_trans|]. split; [exact Hp|by rewrite Hv].
    + split; [by eapply frame_trans|]. split; [exact Hp|by rewrite Hv].
  - cbn [fst snd]. split; [done|]. split; [by left|done].
Qed.

Lemma step_frame e c s :
  lifecycle_frame s.1 (step e c s).1 /\ prizes_step s (step e c s).
Proof.
  destruct s as [r w]. destruct c; cbn [step].
  - destruct (apply_frame e user r w) as (? & ? & _). done.
  - destruct (redeem_frame e user notes r w) as (? & ? & _). done.
  - destruct (verify_frame e user r w) as (? & ? & _). done.
  - destruct (cancel_frame e user reason r w) as (? & ? & _).
    split; [done|by left].
Qed.

Lemma run_frame calls : forall s, lifecycle_frame s.1 (run calls s).1.
Proof.
  induction calls as [|[e c] rest IH]; intros s; cbn [run]; [apply frame_refl|].
  eapply frame_trans; [apply step_frame|apply IH].
Qed.

End Frame.

(** ** Redemption codes in the table *)

Section Codes.
Import Clock prize_winnings PrizeWinning.

Lemma generate_Returned_fresh rng stored pos code pos' :
  generateRedemptionCode rng stored pos = (Returned code, pos') ->
  existing stored code = false.
Proof.
  intros Hgen.
  destruct (first_free_or_all rng stored pos 10) as [(k & Hk & Hall & Hfree)|Hall].
  - rewrite (generate_first_free rng stored pos k Hk Hall Hfree) in Hgen.
    injection Hgen as <- _. unfold collides in Hfree.
    by destruct (existing stored _).
  - rewrite (generate_all_taken rng stored pos Hall) in Hgen. discriminate.
Qed.

Lemma existing_false stored code :
  existing stored code = false <-> Some code ∉ redemption_code <$> stored.
Proof.
  unfold existing. rewrite bool_decide_eq_false, Exists_exists, list_elem_of_fmap.
  split; intros H (w & H1 & H2); apply H; exists w; done.
Qed.

Lemma beforeCreate_code e tp rng stored pos values r pos' :
  redemption_code values = None ->
  beforeCreate e tp rng stored pos values = (Returned r, pos') ->
  status r = status values
  /\ prize_id r = prize_id values
  /\ client_id r = client_id values
  /\ (manual_redemption_required values = false -> redemption_code r = None)
  /\ (manual_redemption_required values = true ->
      exists code, redemption_code r = Some code
                   /\ existing stored code = false).
Proof.
  intros Hnone. unfold beforeCreate. rewrite Hnone. cbn [falsy_string].
  rewrite andb_true_r.
  destruct (manual_redemption_required values).
  - destruct (generateRedemptionCode rng stored pos) as [[code|err] p] eqn:Hg;
      [|discriminate].
    intros [= <- _]. cbn.
    split; [done|]. split; [done|]. split; [done|]. split; [discriminate|].
    intros _. exists code. split; [done|]. by eapply generate_Returned_fresh.
  - intros [= <- _]. cbn.
    split; [done|]. split; [done|]. split; [done|]. split; [done|discriminate].
Qed.



End Codes.



Section CodeLookup.
Import Clock prize_winnings PrizeWinning PrizeWinningQueries.

Lemma find_code_none ws code :
  Forall (fun w => redemption_code w <> Some code \/ status w <> pending) ws ->
  findByRedemptionCode ws code = None.
Proof.
  unfold findByRedemptionCode. induction 1 as [|w ws Hw _ IH]; [done|].
  rewrite filter_cons. destruct (decide _) as [[H1 H2]|_]; [|exact IH].
  destruct Hw; done.
Qed.

Lemma find_code_snoc ws code r :
  Forall (fun w => redemption_code w <> Some code) ws ->
  findByRedemptionCode (ws ++ [r]) code
  = if bool_decide (redemption_code r = Some code /\ status r = pending)
    then Some r else None.
Proof.
  intros Hf. unfold findByRedemptionCode. rewrite filter_app.
  assert (filter (fun w => redemption_code w = Some code /\ status w = pending) ws
          = []) as ->.
  { induction Hf as [|w ws Hw _ IH]; [done|].
    rewrite filter_cons. destruct (decide _) as [[H1 _]|_]; done. }
  cbn [app]. rewrite filter_cons, filter_nil.
  destruct (decide _) as [H|H].
  - by rewrite bool_decide_eq_true_2.
  - by rewrite bool_decide_eq_false_2.
Qed.

Lemma create_Returned e rng values db r db' :
  redemption_code values = None ->
  Engine.create e rng values db = (Returned r, db') ->
  Engine.tbl_winnings db' = Engine.tbl_winnings db ++ [r]
  /\ status r = status values
  /\ (manual_redemption_required values = true ->
      exists code, redemption_code r = Some code
                   /\ Forall (fun w => redemption_code w <> Some code)
                        (Engine.tbl_winnings db)).
Proof.
  intros Hnone. unfold Engine.create.
  destruct (beforeCreate e (Engine.tbl_prizes db) rng (Engine.tbl_winnings db)
              (Engine.cursor db) values) as [[r1|err] pos] eqn:Hb; [|discriminate].
  destruct (beforeCreate_code _ _ _ _ _ _ _ _ Hnone Hb) as (Hst & _ & _ & _ & Hm).
  destruct (afterCreate _ _ _ _) as [tp tr]. intros [= <- <-].
  cbn [Engine.tbl_winnings]. split; [done|]. split; [exact Hst|].
  intros Hman. destruct (Hm Hman) as (code & Hc & Hfresh).
  exists code. split; [exact Hc|].
  apply Forall_forall. intros w Hw Heq.
  apply existing_false in Hfresh. apply Hfresh.
  apply list_elem_of_fmap. exists w. done.
Qed.

End CodeLookup.

(** X9.  A won prize created pending with manual redemption is found again
    by the code it was given: [findByRedemptionCode] returns that row.
    Once lifecycle calls have taken the row out of [pending], by applying,
    redeeming or cancelling it, the same code finds nothing. *)
Theorem X9_code_finds_pending_row (e : PrizeWinning.Env)
    (rng : PrizeWinning.Random) (values r : prize_winnings.row)
    (db db' : Engine.DB) :
  prize_winnings.redemption_code values = None ->
  prize_winnings.status values = pending ->
  prize_winnings.manual_redemption_required values = true ->
  Engine.create e rng values db = (Returned r, db') ->
  exists code,
    prize_winnings.redemption_code r = Some code
    /\ PrizeWinningQueries.findByRedemptionCode (Engine.tbl_winnings db') code
       = Some r
    /\ (forall calls w,
          prize_winnings.status (PrizeWinning.run calls (r, w)).1 <> pending ->
          PrizeWinningQueries.findByRedemptionCode
            (Engine.tbl_winnings db ++ [(PrizeWinning.run calls (r, w)).1]) code
          = None).
Proof.
  intros Hnone Hpend Hman Hcreate.
  destruct (create_Returned _ _ _ _ _ _ Hnone Hcreate) as (Htbl & Hst & Hm).
  destruct (Hm Hman) as (code & Hcode & Hfresh).
  exists code. split; [exact Hcode|]. split.
  - rewrite Htbl, (find_code_snoc _ _ _ Hfresh).
    rewrite bool_decide_eq_true_2; [done|]. split; [done|congruence].
  - intros calls w Hnp. rewrite (find_code_snoc _ _ _ Hfresh).
    rewrite bool_decide_eq_false_2; [done|]. intros [_ ?]. done.
Qed.

Lemma X9_witness :
  let res := Engine.create (env_at at_0900) rng_repeat
               (Engine.new_winning "w1" "C" "A" (Some "R") true false) db_A in
  exists r code,
    res.1 = Returned r
    /\ PrizeWinningQueries.findByRedemptionCode (Engine.tbl_winnings res.2) code
       = Some r.
Proof.
  cbn zeta.
  destruct (Engine.create (env_at at_0900) rng_repeat
              (Engine.new_winning "w1" "C" "A" (Some "R") true false) db_A)
    as [[r|err] db'] eqn:Hc; [|vm_compute in Hc; discriminate].
  destruct (X9_code_finds_pending_row (env_at at_0900) rng_repeat
              (Engine.new_winning "w1" "C" "A" (Some "R") true false) r db_A db'
              eq_refl eq_refl eq_refl Hc)
    as (code & _ & Hfind & _).
  exists r, code. split; [reflexivity|exact Hfind].
Defined.

Section Gating.
Import Clock prize_winnings PrizeWinning.

Lemma canBeApplied_intro now r :
  status r = pending -> isExpired now r = false ->
  (requires_verification r = true -> verified r = true) ->
  canBeApplied now r = Allowed.
Proof.
  intros Hs He Hv. unfold canBeApplied. rewrite Hs, He.
  rewrite bool_decide_eq_false_2 by (intros H; by apply H).
  destruct (requires_verification r); [|done]. by rewrite Hv.
Qed.

Lemma isExpired_frame now r r' :
  lifecycle_frame r r' -> isExpired now r' = isExpired now r.
Proof. intros (_ & He & _). unfold isExpired. by rewrite He. Qed.

Lemma counted_refl r tbl : redemptions_counted r tbl tbl.
Proof. intros k p Hk. exists p. repeat split; try done; lia. Qed.

Lemma counted_insert r tbl p :
  keyed_by_id tbl -> status r = pending ->
  tbl !! prize_id r = Some p ->
  keyed_by_id (<[prizes.id p := Prize.incrementRedeemed p]> tbl)
  /\ redemptions_counted r tbl (<[prizes.id p := Prize.incrementRedeemed p]> tbl).
Proof.
  intros Hk Hp Hl. pose proof (Hk _ _ Hl) as Hid. split.
  - intros k q. destruct (decide (prizes.id p = k)) as [<-|Hne].
    + rewrite lookup_insert_eq. by intros [= <-].
    + rewrite lookup_insert_ne by done. apply Hk.
  - intros k q Hq. destruct (decide (prizes.id p = k)) as [<-|Hne].
    + rewrite lookup_insert_eq. rewrite Hid, Hl in Hq. injection Hq as <-.
      eexists. split; [reflexivity|]. cbn.
      split; [done|]. split; [done|]. split; [lia|]. split; [congruence|].
      congruence.
    + rewrite lookup_insert_ne by done. exists q.
      repeat split; try done; lia.
Qed.

Lemma run_counted calls : forall r w,
  keyed_by_id (prizes_tbl w) ->
  keyed_by_id (prizes_tbl (run calls (r, w)).2)
  /\ redemptions_counted r (prizes_tbl w) (prizes_tbl (run calls (r, w)).2).
Proof.
  induction calls as [|[e c] rest IH]; intros r w Hk; cbn [run].
  - split; [done|apply counted_refl].
  - destruct (step_frame e c (r, w)) as [_ Hp].
    destruct (step_spec e c (r, w)) as [(Hid & _) _].
    destruct (step e c (r, w)) as [r1 w1] eqn:Hstep.
    unfold prizes_step in Hp. cbn [fst snd] in *.
    destruct Hp as [Hsame|(Hpend & Hnp & p & Hl & Hins)].
    + rewrite <- Hsame in Hk. destruct (IH r1 w1 Hk) as [Hk' Hc].
      split; [done|]. rewrite Hsame in Hc.
      intros k q Hq. destruct (Hc k q Hq) as (q' & ? & ? & ? & ? & Hne & Hst).
      exists q'. repeat split; try done; try lia.
      * intros Hkne. apply Hne. by rewrite Hid.
      * intros Hnp. apply Hst.
        pose proof (step_not_pending e c (r, w) Hnp) as (Hnp' & _).
        by rewrite Hstep in Hnp'.
    + destruct (counted_insert r (prizes_tbl w) p Hk Hpend Hl) as [Hk1 Hc1].
      rewrite <- Hins in Hk1, Hc1.
      destruct (IH r1 w1 Hk1) as [Hk' Hc]. split; [done|].
      intros k q Hq. destruct (Hc1 k q Hq) as (q1 & Hq1 & Ha & Hs & Hr & Hne & _).
      destruct (Hc k q1 Hq1) as (q' & Hq' & _ & _ & _ & _ & Hst).
      rewrite (Hst Hnp) in Hq'. exists q1. repeat split; try done; try lia.
Qed.

End Gating.

(** X10.  A pending, unexpired row that requires verification and has
    none cannot be applied: [apply] throws and changes nothing.  [verify]
    lifts the refusal: after it the row is verified and either has been
    applied by [verify] itself or is still pending and passes
    [canBeApplied]. *)
Theorem X10_verification_gates_apply (e : PrizeWinning.Env)
    (u v : option string) (r : prize_winnings.row) (w : PrizeWinning.World) :
  prize_winnings.status r = pending ->
  PrizeWinning.isExpired (PrizeWinning.now e) r = false ->
  prize_winnings.requires_verification r = true ->
  prize_winnings.verified r = false ->
  PrizeWinning.apply e u (r, w)
  = (Thrown PrizeWinning.Requiere_verificacion, (r, w))
  /\ let r' := (PrizeWinning.verify e v (r, w)).2.1 in
     prize_winnings.verified r' = true
     /\ (prize_winnings.status r' = applied
         \/ (prize_winnings.status r' = pending
             /\ PrizeWinning.canBeApplied (PrizeWinning.now e) r' = Allowed)).
Proof.
  intros Hs He Hrv Hv. split.
  - unfold PrizeWinning.apply, PrizeWinning.canBeApplied.
    rewrite Hs, He, Hrv, Hv.
    by rewrite bool_decide_eq_false_2 by (intros H; by apply H).
  - cbn zeta. destruct (verify_frame e v r w) as (Hf & _ & Hver).
    split; [exact Hver|].
    assert (prize_winnings.status (PrizeWinning.verify e v (r, w)).2.1 = pending
            \/ prize_winnings.status (PrizeWinning.verify e v (r, w)).2.1 = applied)
      as [Hst|Hst].
    { unfold PrizeWinning.verify.
      set (r1 := PrizeWinning.save _ r (PrizeWinning.set_verified _ v r)).
      match goal with |- context [if ?b then _ else _] => destruct b end.
      - destruct (apply_frame e v r1 w) as (_ & _ & _ & Hst).
        destruct (PrizeWinning.apply e v (r1, w)) as [[res|err] s'];
          cbn [fst snd] in *; (destruct Hst as [Hst|Hst]; [left|right]);
          try done; by rewrite Hst.
      - left. done. }
    + right. split; [done|]. apply canBeApplied_intro; [done| |done].
      by rewrite (isExpired_frame _ _ _ Hf).
    + by left.
Qed.

Lemma X10_witness :
  PrizeWinning.apply (env_at 1000) None (won_unverified, world_A)
  = (Thrown PrizeWinning.Requiere_verificacion, (won_unverified, world_A)).
Proof.
  exact (proj1 (X10_verification_gates_apply (env_at 1000) None None
                  won_unverified world_A eq_refl eq_refl eq_refl eq_refl)).
Defined.

(** X11.  [redeem] succeeds exactly on a pending row that has not expired,
    whether or not the row requires verification, has been verified or
    carries a redemption code: the row becomes [redeemed] at the time of
    the call and its verification flag is left alone.  On any other row it
    throws and changes nothing. *)
Theorem X11_redeem_guard (e : PrizeWinning.Env) (u n : option string)
    (r : prize_winnings.row) (w : PrizeWinning.World) :
  let res := PrizeWinning.redeem e u n (r, w) in
  (prize_winnings.status r = pending ->
   PrizeWinning.isExpired (PrizeWinning.now e) r = false ->
   res.1 = Returned tt
   /\ prize_winnings.status res.2.1 = redeemed
   /\ prize_winnings.redeemed_date res.2.1 = Some (PrizeWinning.now e)
   /\ prize_winnings.verified res.2.1 = prize_winnings.verified r
   /\ prize_winnings.redemption_code res.2.1 = prize_winnings.redemption_code r)
  /\ (prize_winnings.status r <> pending ->
      res = (Thrown (PrizeWinning.No_se_puede_canjear_un_premio
                       (prize_winnings.status r)), (r, w)))
  /\ (prize_winnings.status r = pending ->
      PrizeWinning.isExpired (PrizeWinning.now e) r = true ->
      res = (Thrown PrizeWinning.El_premio_ha_expirado, (r, w))).
Proof.
  cbn zeta. split; [|split].
  - intros Hs He.
    destruct (redeem_frame e u n r w) as ((_ & _ & Hcode & _) & _ & Hver).
    pose proof (redeem_columns e u n r w) as Hcol. cbn zeta in Hcol.
    assert (prize_winnings.status (PrizeWinning.redeem e u n (r, w)).2.1 = redeemed
            /\ (PrizeWinning.redeem e u n (r, w)).1 = Returned tt) as [Hst Hret].
    { unfold PrizeWinning.redeem. rewrite Hs, He.
      rewrite bool_decide_eq_false_2 by (intros H; by apply H).
      cbn [fst snd]. split; [|done].
      match goal with |- context [PrizeWinning.sendNotification e ?ty (?r1, ?w1)] =>
        destruct (sendNotification_spec e ty r1 w1) as (-> & _)
      end. done. }
    destruct Hcol as (_ & Hdate & _); [rewrite Hst, Hs; discriminate|].
    done.
  - intros Hs. unfold PrizeWinning.redeem. by rewrite bool_decide_eq_true_2.
  - intros Hs He. unfold PrizeWinning.redeem. rewrite Hs, He.
    by rewrite bool_decide_eq_false_2 by (intros H; by apply H).
Qed.

Lemma X11_witness :
  (PrizeWinning.redeem (env_at 1000) (Some "staff") None
     (won_unverified, world_A)).1 = Returned tt.
Proof.
  exact (proj1 (proj1 (X11_redeem_guard (env_at 1000) (Some "staff") None
                         won_unverified world_A) eq_refl eq_refl)).
Defined.

(** X12.  Whatever lifecycle calls are made on a row, the [prizes] table
    stays keyed by [id] and keeps every prize with its awards and stock:
    at most one redemption is added, to the prize of the row only, and none
    if the row was not pending to begin with. *)
Theorem X12_one_redemption_counted
    (calls : list (PrizeWinning.Env * PrizeWinning.Call))
    (r : prize_winnings.row) (w : PrizeWinning.World) :
  keyed_by_id (PrizeWinning.prizes_tbl w) ->
  keyed_by_id (PrizeWinning.prizes_tbl (PrizeWinning.run calls (r, w)).2)
  /\ redemptions_counted r (PrizeWinning.prizes_tbl w)
       (PrizeWinning.prizes_tbl (PrizeWinning.run calls (r, w)).2).
Proof. apply run_counted. Qed.

Lemma X12_witness :
  exists p',
    PrizeWinning.prizes_tbl
      (PrizeWinning.run
         [(env_at 1000, PrizeWinning.Call_apply None);
          (env_at 2000, PrizeWinning.Call_redeem (Some "staff") None);
          (env_at 3000, PrizeWinning.Call_apply None)]
         (won "w1" "C" pending 500, world_A)).2 !! "A" = Some p'
    /\ prizes.awarded_count p' = 0
    /\ prizes.redeemed_count p' <= 1.
Proof.
  destruct (X12_one_redemption_counted
              [(env_at 1000, PrizeWinning.Call_apply None);
               (env_at 2000, PrizeWinning.Call_redeem (Some "staff") None);
               (env_at 3000, PrizeWinning.Call_apply None)]
              (won "w1" "C" pending 500) world_A keyed_prizes_A) as [_ H].
  destruct (H "A" prize_A (lookup_singleton_eq _ _)) as (p' & Hl & Ha & _ & Hr & _).
  exists p'. split; [exact Hl|]. split; [exact Ha|].
  change (prizes.redeemed_count prize_A) with 0 in Hr. lia.
Defined.

(** ** Points *)

Section Points.
Import clients Client.


End Points.



(** ** Deactivated gates *)

(** X18.  A deactivated gate is never used again: every use attempt is
    refused as deactivated and leaves the gate as it is, so that after any
    sequence of attempts its use count, scan count and used flag are those
    it had when it was deactivated. *)
Theorem X18_deactivated_gate_is_inert
    (merge : option string -> option string -> Clock.Date -> option string)
    (now : Clock.Date) (reason : option string) (q : QRCode.t) :
  let q' := QRCodeAdmin.deactivate merge now reason q in
  (forall t c, QRCode.use t c q' = (Thrown QRCode.Codigo_desactivado, q'))
  /\ (forall calls, QRCode.use_all calls q' = q')
  /\ QRCode.current_uses q' = QRCode.current_uses q
  /\ QRCode.scan_count q' = QRCode.scan_count q
  /\ QRCode.is_used q' = QRCode.is_used q.
Proof.
  cbn zeta. split; [done|]. split; [|done].
  induction calls as [|[t c] rest IH]; [done|]. exact IH.
Qed.

(** ** Failed logins *)

Section Lockout.
Import Clock User.

Lemma failures_attempts times : forall u,
  login_attempts (failures times u) = login_attempts u + Z.of_nat (length times).
Proof.
  induction times as [|t rest IH]; intros u; cbn [failures length]; [lia|].
  rewrite IH. cbn. lia.
Qed.

Lemma failures_snoc times t u :
  failures (times ++ [t]) u = incrementLoginAttempts t (failures times u).
Proof. revert u. induction times as [|t0 rest IH]; intros u; [done|]. apply IH. Qed.

Lemma failures_below times : forall u,
  login_attempts u + Z.of_nat (length times) < maxAttempts ->
  locked_until (failures times u) = locked_until u.
Proof.
  induction times as [|t rest IH]; intros u H; cbn [failures]; [done|].
  cbn [length] in H. rewrite IH by (cbn; lia). cbn.
  rewrite bool_decide_eq_false_2; [done|lia].
Qed.

End Lockout.

(** X19.  Failed logins lock an account once their count reaches five:
    below five the lock is untouched, and from the fifth on every failed
    login, also one made after an earlier lock has run out, locks the
    account for thirty minutes from that login, because only
    [resetLoginAttempts] brings the count back to zero. *)
Theorem X19_lockout_after_five_failures (u : User.row)
    (times : list Clock.Date) (t : Clock.Date) :
  0 <= User.login_attempts u ->
  let u' := User.failures (times ++ [t]) u in
  User.login_attempts u' = User.login_attempts u + Z.of_nat (length times) + 1
  /\ (User.login_attempts u' < 5 -> User.locked_until u' = User.locked_until u)
  /\ (5 <= User.login_attempts u' ->
      User.locked_until u' = Some (t + 30 * 60 * 1000)
      /\ forall now, t <= now < t + 30 * 60 * 1000 -> User.isLocked now u' = true)
  /\ (forall now, User.isLocked now (User.resetLoginAttempts now u') = false
                  /\ User.login_attempts (User.resetLoginAttempts now u') = 0).
Proof.
  intros H0 u'.
  assert (User.login_attempts u'
          = User.login_attempts u + Z.of_nat (length times) + 1) as Hn.
  { unfold u'. rewrite failures_attempts, length_app. cbn. lia. }
  split; [exact Hn|]. split; [|split].
  - intros Hlt. unfold u'. apply failures_below.
    rewrite length_app. cbn. unfold User.maxAttempts. lia.
  - intros Hge. unfold u' in *. rewrite failures_snoc in *.
    assert (User.locked_until
              (User.incrementLoginAttempts t (User.failures times u))
            = Some (t + 30 * 60 * 1000)) as Hl.
    { cbn. rewrite bool_decide_eq_true_2; [done|].
      cbn in Hge. unfold User.maxAttempts. lia. }
    split; [exact Hl|]. intros now Hnow. unfold User.isLocked. rewrite Hl.
    apply bool_decide_eq_true_2. lia.
  - intros now. done.
Qed.

Lemma X19_witness :
  User.isLocked 6000 (User.failures [1000; 2000; 3000; 4000; 5000] fresh_user)
  = true.
Proof.
  destruct (X19_lockout_after_five_failures fresh_user [1000; 2000; 3000; 4000]
              5000 ltac:(cbn; lia)) as (_ & _ & H & _).
  apply H; [vm_compute; discriminate|lia].
Defined.

(** ** Consecutive days of attendance *)

Section Streak.
Import Clock clients Client.

Lemma localDay_subDays t : localDay (subDays t 1) = localDay t - 1.
Proof.
  unfold localDay, subDays, ms_per_day.
  replace (t - 1 * 86400000) with (t + (-1) * 86400000) by lia.
  rewrite Z.div_add by lia. lia.
Qed.

Lemma localDay_parse_utc d : localDay (parseDateOnly 0 d) = d.
Proof.
  unfold localDay, parseDateOnly, ms_per_day. rewrite Z.add_0_r.
  apply Z.div_mul. lia.
Qed.

(** West of Greenwich a stored day is read back as the day before. *)
Lemma localDay_parse_west offset d :
  - ms_per_day < offset < 0 -> localDay (parseDateOnly offset d) = d - 1.
Proof.
  unfold localDay, parseDateOnly, ms_per_day. intros H.
  replace (d * 86400000 + offset) with ((offset + 86400000) + (d - 1) * 86400000)
    by lia.
  rewrite Z.div_add by lia. rewrite Z.div_small by lia. lia.
Qed.

Lemma utcDay_west_morning offset t :
  - ms_per_day < offset < 0 -> t `mod` ms_per_day < ms_per_day + offset ->
  utcDay offset t = localDay t.
Proof.
  unfold utcDay, localDay, ms_per_day. intros H Hm.
  pose proof (Z.div_mod t 86400000 ltac:(lia)) as Hd.
  pose proof (Z.mod_pos_bound t 86400000 ltac:(lia)) as Hb.
  replace (t - offset)
    with ((t `mod` 86400000 - offset) + t `div` 86400000 * 86400000) by lia.
  rewrite Z.div_add by lia. rewrite Z.div_small by lia. lia.
Qed.

End Streak.

(** X14.  Whatever the zone, [updateConsecutiveDays] leaves the current
    streak no longer than the longest streak, never shortens the longest
    streak, and starts a first streak at 1.  On a clock set to UTC it
    stores the day of the check-in and counts as its comment says: one more
    after a check-in the day before, the same after one on the same day,
    and 1 again after a gap. *)
Theorem X14_streak_on_utc (offset : Z) (t : Clock.Date) (c : clients.row) :
  let c' := Client.updateConsecutiveDays offset t c in
  clients.consecutive_days c' <= clients.max_consecutive_days c'
  /\ clients.max_consecutive_days c <= clients.max_consecutive_days c'
  /\ (clients.last_checkin_date c = None -> clients.consecutive_days c' = 1)
  /\ (offset = 0 ->
      clients.last_checkin_date c' = Some (Client.localDay t)
      /\ forall d, clients.last_checkin_date c = Some d ->
           (d = Client.localDay t - 1 ->
            clients.consecutive_days c' = clients.consecutive_days c + 1)
           /\ (d = Client.localDay t ->
               clients.consecutive_days c' = clients.consecutive_days c)
           /\ (d <> Client.localDay t -> d <> Client.localDay t - 1 ->
               clients.consecutive_days c' = 1)).
Proof.
  cbn zeta. unfold Client.updateConsecutiveDays.
  cbn [clients.consecutive_days clients.max_consecutive_days
       clients.last_checkin_date Client.set_streak].
  split; [case_bool_decide; lia|]. split; [case_bool_decide; lia|].
  split; [by intros ->|]. intros ->. split.
  - unfold Client.utcDay, Client.localDay. by rewrite Z.sub_0_r.
  - intros d ->. rewrite localDay_parse_utc, localDay_subDays.
    split; [|split].
    + intros ->. by rewrite bool_decide_eq_true_2.
    + intros ->. rewrite bool_decide_eq_false_2 by lia.
      rewrite bool_decide_eq_false_2; [done|]. intros H. by apply H.
    + intros H1 H2. rewrite bool_decide_eq_false_2 by done.
      by rewrite bool_decide_eq_true_2.
Qed.

Lemma X14_witness :
  clients.consecutive_days
    (Client.updateConsecutiveDays 0 (11 * Clock.ms_per_day + 3600000)
       (client_streak (Some 10) 4)) = 5.
Proof.
  destruct (X14_streak_on_utc 0 (11 * Clock.ms_per_day + 3600000)
              (client_streak (Some 10) 4)) as (_ & _ & _ & H).
  destruct (H eq_refl) as [_ Hd].
  destruct (Hd 10 eq_refl) as [Hnext _].
  apply Hnext. vm_compute. reflexivity.
Defined.

(** X15.  West of Greenwich the streak is miscounted after a check-in
    made early enough in the day for the UTC date to be the local date:
    the stored day is read back as the day before, so a check-in on the
    next local day starts again at 1 and a second check-in on the same
    local day adds one to the streak. *)
Theorem X15_streak_west_of_greenwich (offset : Z) (t1 t2 : Clock.Date)
    (c : clients.row) :
  - Clock.ms_per_day < offset < 0 ->
  t1 `mod` Clock.ms_per_day < Clock.ms_per_day + offset ->
  let c1 := Client.updateConsecutiveDays offset t1 c in
  let c2 := Client.updateConsecutiveDays offset t2 c1 in
  clients.last_checkin_date c1 = Some (Client.localDay t1)
  /\ (Client.localDay t2 = Client.localDay t1 + 1 ->
      clients.consecutive_days c2 = 1)
  /\ (Client.localDay t2 = Client.localDay t1 ->
      clients.consecutive_days c2 = clients.consecutive_days c1 + 1).
Proof.
  intros Hoff Hmorning c1 c2.
  assert (clients.last_checkin_date c1 = Some (Client.localDay t1)) as Hlast.
  { unfold c1, Client.updateConsecutiveDays. cbn [clients.last_checkin_date
      Client.set_streak]. by rewrite utcDay_west_morning. }
  split; [exact Hlast|].
  unfold c2, Client.updateConsecutiveDays. rewrite Hlast.
  cbn [clients.consecutive_days Client.set_streak].
  rewrite (localDay_parse_west offset _ Hoff), localDay_subDays.
  split.
  - intros ->. rewrite bool_decide_eq_false_2 by lia.
    rewrite bool_decide_eq_true_2 by lia. done.
  - intros ->. rewrite bool_decide_eq_true_2 by done. done.
Qed.

Lemma X15_witness :
  let c1 := Client.updateConsecutiveDays utc_minus_6
              (10 * Clock.ms_per_day + 8 * 3600000) (client_streak (Some 8) 4) in
  clients.consecutive_days
    (Client.updateConsecutiveDays utc_minus_6
       (11 * Clock.ms_per_day + 8 * 3600000) c1) = 1.
Proof.
  destruct (X15_streak_west_of_greenwich utc_minus_6
              (10 * Clock.ms_per_day + 8 * 3600000)
              (11 * Clock.ms_per_day + 8 * 3600000) (client_streak (Some 8) 4)
              ltac:(vm_compute; split; reflexivity) ltac:(vm_compute; reflexivity))
    as (_ & Hnext & _).
  apply Hnext. vm_compute. reflexivity.
Defined.

(** ** Slugs of product categories *)

Section Slug.
Import ProductCategory.

Lemma is_dash_eq c : is_dash c = true <-> c = dash.
Proof.
  unfold is_dash, code. rewrite Nat.eqb_eq. split.
  - intros H. rewrite <- (ascii_nat_embedding c), H. reflexivity.
  - intros ->. reflexivity.
Qed.

Lemma slug_char_kinds c :
  slug_char c ->
  is_upper c = false /\ is_space c = false
  /\ (is_lower c || is_digit c || is_space c || is_dash c) = true.
Proof.
  unfold slug_char, is_upper, is_space, is_lower, is_digit.
  intros [H|[H| ->]]; [| |by vm_compute].
  - apply andb_true_iff in H as [H1 H2].
    apply Nat.leb_le in H1. apply Nat.leb_le in H2.
    rewrite (proj2 (Nat.leb_le 97 _) H1), (proj2 (Nat.leb_le _ 122) H2).
    split; [|split; [|done]].
    + apply andb_false_iff. right. apply Nat.leb_gt. lia.
    + apply orb_false_iff. split.
      * apply andb_false_iff. right. apply Nat.leb_gt. lia.
      * apply Nat.eqb_neq. lia.
  - apply andb_true_iff in H as [H1 H2].
    apply Nat.leb_le in H1. apply Nat.leb_le in H2.
    rewrite (proj2 (Nat.leb_le 48 _) H1), (proj2 (Nat.leb_le _ 57) H2).
    split; [|split; [|by rewrite orb_true_r]].
    + apply andb_false_iff. left. apply Nat.leb_gt. lia.
    + apply orb_false_iff. split.
      * apply andb_false_iff. right. apply Nat.leb_gt. lia.
      * apply Nat.eqb_neq. lia.
Qed.

Lemma strip_kept l :
  Forall (fun c => is_space c = true \/ slug_char c) (strip l).
Proof.
  unfold strip. apply Forall_forall. intros c Hc.
  apply list_elem_of_In, filter_In in Hc as [_ Hc].
  unfold slug_char.
  destruct (is_lower c), (is_digit c), (is_space c); cbn in Hc; auto.
  right. right. right. by apply is_dash_eq.
Qed.

Lemma spaces_to_dash_chars l : forall inside,
  Forall (fun c => is_space c = true \/ slug_char c) l ->
  Forall slug_char (spaces_to_dash inside l).
Proof.
  induction l as [|c rest IH]; intros inside Hl; cbn [spaces_to_dash];
    [constructor|].
  apply Forall_cons in Hl as [Hc Hrest].
  destruct (is_space c) eqn:Hs.
  - destruct inside; [by apply IH|].
    constructor; [right; right; reflexivity|by apply IH].
  - constructor; [destruct Hc; [congruence|done]|by apply IH].
Qed.

Lemma squeeze_chars l : forall inside,
  Forall slug_char l -> Forall slug_char (squeeze_dashes inside l).
Proof.
  induction l as [|c rest IH]; intros inside Hl; cbn [squeeze_dashes];
    [constructor|].
  apply Forall_cons in Hl as [Hc Hrest].
  destruct (is_dash c).
  - destruct inside; [by apply IH|].
    constructor; [right; right; reflexivity|by apply IH].
  - constructor; [done|by apply IH].
Qed.

(** After [squeeze_dashes] a dash is followed by no dash, and the result
    starts with no dash when the scan was inside a run. *)
Lemma squeeze_single l : forall inside,
  dashes_single (squeeze_dashes inside l)
  /\ (inside = true -> head (squeeze_dashes inside l) <> Some dash).
Proof.
  induction l as [|c rest IH]; intros inside; cbn [squeeze_dashes].
  - split; [intros i; by rewrite lookup_nil|done].
  - destruct (is_dash c) eqn:Hd.
    + destruct inside.
      * apply IH.
      * destruct (IH true) as [Hs Hh]. split; [|done].
        intros [|i]; cbn.
        -- intros _. specialize (Hh eq_refl).
           by destruct (squeeze_dashes true rest).
        -- apply Hs.
    + destruct (IH false) as [Hs _]. split.
      * intros [|i]; cbn.
        -- intros [= ->]. by rewrite (proj2 (is_dash_eq dash) eq_refl) in Hd.
        -- apply Hs.
      * intros _. cbn. intros [= ->].
        by rewrite (proj2 (is_dash_eq dash) eq_refl) in Hd.
Qed.

Lemma trim_start_id l :
  Forall (fun c => is_space c = false) l -> trim_start l = l.
Proof. destruct 1 as [|c l Hc _]; [done|]. cbn. by rewrite Hc. Qed.

Lemma trim_id l : Forall (fun c => is_space c = false) l -> trim l = l.
Proof.
  intros H. unfold trim. rewrite (trim_start_id l H).
  rewrite trim_start_id; [apply rev_involutive|].
  apply Forall_forall. intros c Hc. rewrite Forall_forall in H. apply H.
  apply list_elem_of_In. apply list_elem_of_In in Hc. by apply in_rev.
Qed.

Lemma slug_chars_no_space l :
  Forall slug_char l -> Forall (fun c => is_space c = false) l.
Proof.
  intros H. eapply Forall_impl; [exact H|]. intros c Hc. by apply slug_char_kinds.
Qed.

Lemma map_lower_id l : Forall slug_char l -> map lower l = l.
Proof.
  induction 1 as [|c l Hc _ IH]; [done|]. cbn. rewrite IH. f_equal.
  unfold lower. by rewrite (proj1 (slug_char_kinds c Hc)).
Qed.

Lemma strip_id l : Forall slug_char l -> strip l = l.
Proof.
  induction 1 as [|c l Hc _ IH]; [done|]. unfold strip in *. cbn.
  destruct (slug_char_kinds c Hc) as (_ & _ & ->). by rewrite IH.
Qed.

Lemma spaces_to_dash_id l : forall inside,
  Forall (fun c => is_space c = false) l -> spaces_to_dash inside l = l.
Proof.
  induction l as [|c rest IH]; intros inside Hl; [done|].
  apply Forall_cons in Hl as [Hc Hrest]. cbn. rewrite Hc. f_equal. by apply IH.
Qed.

Lemma squeeze_id l : forall inside,
  dashes_single l -> (inside = true -> head l <> Some dash) ->
  squeeze_dashes inside l = l.
Proof.
  induction l as [|c rest IH]; intros inside Hs Hh; [done|].
  cbn [squeeze_dashes]. destruct (is_dash c) eqn:Hd.
  - apply is_dash_eq in Hd as ->.
    destruct inside; [exfalso; by apply Hh|].
    f_equal. apply IH.
    + intros i Hi. apply (Hs (S i)). exact Hi.
    + intros _ Hhead. apply (Hs 0%nat); [done|].
      cbn. by destruct rest; [|injection Hhead as ->].
  - f_equal. apply IH; [|done]. intros i Hi. apply (Hs (S i)). exact Hi.
Qed.

Lemma slugify_chars_spec l :
  slugify_chars l
  = squeeze_dashes false (spaces_to_dash false (strip (map lower l)))
  /\ Forall slug_char (slugify_chars l)
  /\ dashes_single (slugify_chars l).
Proof.
  unfold slugify_chars.
  set (x := squeeze_dashes false (spaces_to_dash false (strip (map lower l)))).
  assert (Forall slug_char x) as Hx
    by (apply squeeze_chars, spaces_to_dash_chars, strip_kept).
  rewrite (trim_id x (slug_chars_no_space x Hx)).
  split; [done|]. split; [done|]. apply squeeze_single.
Qed.

End Slug.

(** X16.  The slug the hooks compute from a name of plain characters
    holds only lower-case letters, digits and dashes, never two dashes in a
    row, and computing it again from the slug changes nothing.  The final
    [trim('-')] removes nothing, so dashes that stand for leading or
    trailing spaces of the name remain. *)
Theorem X16_slug_is_normal (l : list ascii) :
  plain_ascii l ->
  Forall slug_char (ProductCategory.slugify_chars l)
  /\ dashes_single (ProductCategory.slugify_chars l)
  /\ ProductCategory.slugify_chars (ProductCategory.slugify_chars l)
     = ProductCategory.slugify_chars l
  /\ ProductCategory.slugify_chars l
     = ProductCategory.squeeze_dashes false
         (ProductCategory.spaces_to_dash false
            (ProductCategory.strip (map ProductCategory.lower l)))
  /\ (forall c rest, l = c :: rest -> ProductCategory.is_space c = true ->
        head (ProductCategory.slugify_chars l) = Some ProductCategory.dash).
Proof.
  intros _. destruct (slugify_chars_spec l) as (Heq & Hc & Hs).
  split; [exact Hc|]. split; [exact Hs|]. split; [|split; [exact Heq|]].
  - destruct (slugify_chars_spec (ProductCategory.slugify_chars l)) as (-> & _ & _).
    rewrite (map_lower_id _ Hc), (strip_id _ Hc).
    rewrite (spaces_to_dash_id _ false (slug_chars_no_space _ Hc)).
    apply squeeze_id; [exact Hs|discriminate].
  - intros c rest -> Hsp. rewrite Heq. cbn [map].
    assert (ProductCategory.lower c = c) as ->.
    { unfold ProductCategory.lower.
      destruct (ProductCategory.is_upper c) eqn:E; [|done].
      unfold ProductCategory.is_upper in E.
      unfold ProductCategory.is_space in Hsp.
      apply andb_true_iff in E as [E1 E2].
      apply Nat.leb_le in E1. apply Nat.leb_le in E2.
      apply orb_true_iff in Hsp as [Hsp|Hsp].
      - apply andb_true_iff in Hsp as [_ H2]. apply Nat.leb_le in H2. lia.
      - apply Nat.eqb_eq in Hsp. lia. }
    unfold ProductCategory.strip. cbn [List.filter]. rewrite Hsp.
    rewrite orb_true_r. cbn [orb ProductCategory.spaces_to_dash].
    rewrite Hsp. cbn [ProductCategory.squeeze_dashes].
    by rewrite (proj2 (is_dash_eq ProductCategory.dash) eq_refl).
Qed.

Lemma X16_witness :
  ProductCategory.slugify " Pesas  y -- Barras! " = "-pesas-y-barras-".
Proof.
  assert (plain_ascii (String.list_ascii_of_string " Pesas  y -- Barras! ")) as H
    by (repeat constructor).
  destruct (X16_slug_is_normal _ H) as (_ & _ & _ & Heq & _).
  unfold ProductCategory.slugify. rewrite Heq. vm_compute. reflexivity.
Defined.

(** ** Paths of product categories *)

Section Paths.
Import ProductCategory.

Lemma getFullPath_more fuel tbl : forall c path,
  getFullPath fuel tbl c = Some path ->
  forall fuel', (fuel <= fuel')%nat -> getFullPath fuel' tbl c = Some path.
Proof.
  induction fuel as [|fuel IH]; intros c path H fuel' Hle; [discriminate|].
  destruct fuel' as [|fuel']; [lia|]. cbn [getFullPath] in *.
  destruct (falsy (parent_category_id c)); [done|].
  destruct (parent_category_id c) as [pid|]; [|done].
  destruct (tbl !! pid) as [parent|]; [|done].
  destruct (getFullPath fuel tbl parent) as [pp|] eqn:E; [|discriminate].
  rewrite (IH parent pp E fuel' ltac:(lia)). done.
Qed.

Lemma getFullPath_shape fuel tbl : forall c path,
  getFullPath fuel tbl c = Some path ->
  last path = Some (name c) /\ (0 < length path <= fuel)%nat.
Proof.
  induction fuel as [|fuel IH]; intros c path H; [discriminate|].
  cbn [getFullPath] in H.
  destruct (falsy (parent_category_id c));
    [injection H as <-; cbn; split; [done|lia]|].
  destruct (parent_category_id c) as [pid|];
    [|injection H as <-; cbn; split; [done|lia]].
  destruct (tbl !! pid) as [parent|];
    [|injection H as <-; cbn; split; [done|lia]].
  destruct (getFullPath fuel tbl parent) as [pp|] eqn:E; [|discriminate].
  injection H as <-. destruct (IH parent pp E) as [_ Hlen].
  rewrite last_snoc, length_app. cbn. split; [done|lia].
Qed.

Lemma getFullPath_loop tbl c :
  falsy (parent_category_id c) = false ->
  parent_category_id c = Some (id c) ->
  tbl !! id c = Some c ->
  forall fuel, getFullPath fuel tbl c = None.
Proof.
  intros Hf Hp Hl. induction fuel as [|fuel IH]; [done|].
  cbn [getFullPath]. by rewrite Hf, Hp, Hl, IH.
Qed.

End Paths.

(** X17.  [getFullPath] gives the names from the topmost ancestor down to
    the category itself: a category without parent, or whose parent is
    missing, has the path of its own name; a category whose parent has a
    path gets that path followed by its own name; a path always ends with
    the category's name and a deeper bound on the calls never changes it.
    For a category that is its own parent the calls never end. *)
Theorem X17_full_path (tbl : gmap string ProductCategory.row)
    (c : ProductCategory.row) :
  (forall fuel path,
      ProductCategory.getFullPath fuel tbl c = Some path ->
      last path = Some (ProductCategory.name c)
      /\ (0 < length path <= fuel)%nat
      /\ forall fuel', (fuel <= fuel')%nat ->
           ProductCategory.getFullPath fuel' tbl c = Some path)
  /\ (ProductCategory.parent_category_id c = None
      \/ (exists pid, ProductCategory.parent_category_id c = Some pid
                      /\ pid <> EmptyString /\ tbl !! pid = None) ->
      ProductCategory.getFullPath 1 tbl c = Some [ProductCategory.name c])
  /\ (forall pid parent fuel parentPath,
        ProductCategory.parent_category_id c = Some pid ->
        pid <> EmptyString ->
        tbl !! pid = Some parent ->
        ProductCategory.getFullPath fuel tbl parent = Some parentPath ->
        ProductCategory.getFullPath (S fuel) tbl c
        = Some (parentPath ++ [ProductCategory.name c]))
  /\ (ProductCategory.parent_category_id c = Some (ProductCategory.id c) ->
      ProductCategory.id c <> EmptyString ->
      tbl !! ProductCategory.id c = Some c ->
      forall fuel, ProductCategory.getFullPath fuel tbl c = None).
Proof.
  split; [|split; [|split]].
  - intros fuel path H. destruct (getFullPath_shape fuel tbl c path H).
    split; [done|]. split; [done|]. by apply getFullPath_more.
  - intros [Hp|(pid & Hp & Hne & Hl)]; cbn [ProductCategory.getFullPath];
      rewrite Hp; cbn [ProductCategory.falsy]; [done|].
    rewrite bool_decide_eq_false_2 by done. by rewrite Hl.
  - intros pid parent fuel parentPath Hp Hne Hl Hpath.
    cbn [ProductCategory.getFullPath]. rewrite Hp. cbn [ProductCategory.falsy].
    rewrite bool_decide_eq_false_2 by done. by rewrite Hl, Hpath.
  - intros Hp Hne Hl. apply getFullPath_loop; [|done|done].
    rewrite Hp. cbn. by rewrite bool_decide_eq_false_2.
Qed.

Lemma X17_witness :
  ProductCategory.getFullPath 3 categories (category "3" "mancuernas" (Some "2"))
  = Some ["gym"; "pesas"; "mancuernas"]
  /\ forall fuel,
       ProductCategory.getFullPath fuel categories (category "9" "bucle" (Some "9"))
       = None.
Proof.
  split; [vm_compute; reflexivity|].
  destruct (X17_full_path categories (category "9" "bucle" (Some "9")))
    as (_ & _ & _ & Hloop).
  apply Hloop; [reflexivity|discriminate|vm_compute; reflexivity].
Defined.

(** ** Outcomes of [apply] *)

Section ApplyOutcomes.
Import Clock prize_winnings PrizeWinning.


End ApplyOutcomes.



(** ** The [afterCreate] hook and the limits *)

Section AfterCreate.
Import Clock prize_winnings PrizeWinning.


End AfterCreate.




Section SpinAfterCreate.
Import Clock roulettes Roulette.



End SpinAfterCreate.



